(** * aoc_solver.aoc_map: the grid navigator (AoCMap)

    A shallow embedding of [src/aoc_solver/aoc_map.py]: the eight-way
    [Direction] enumeration, the [OutOfBounds] exception and the [AoCMap]
    dataclass with its bounds-checked read, its position setter and the four
    navigator methods [look], [update], [walk] and [rotate].

    Python integers are [Z]; Python exceptions are an explicit error result;
    the Polars frame behind [AoCMap.df] is a list of equally long columns. *)

From Stdlib Require Import ZArith QArith Qround Lia String.
From stdpp Require Import base tactics option list sorting.

Local Open Scope Z_scope.

(** ** Exceptions and the error monad *)

(** The exceptions the module can raise: its own [OutOfBounds], and the
    built-in ones reached through [len], [Direction(...)] and indexing. *)
Inductive exn : Type :=
| OutOfBounds
| TypeError
| ValueError
| IndexError
| OverflowError.

Inductive result (A : Type) : Type :=
| Ok (a : A)
| Raise (e : exn).

Arguments Ok {A} a.
Arguments Raise {A} e.

#[global] Instance result_ret : MRet result := fun A a => Ok a.

#[global] Instance result_bind : MBind result := fun A B f r =>
  match r with
  | Ok a => f a
  | Raise e => Raise e
  end.

(** A list comprehension whose body may raise: [[f i for i in l]]. *)
Fixpoint comprehension {A B : Type} (f : A -> result B) (l : list A)
  : result (list B) :=
  match l with
  | [] => Ok []
  | a :: l' => b ← f a; bs ← comprehension f l'; Ok (b :: bs)
  end.

(** A [for i in l: body] loop threading the mutated object. *)
Fixpoint for_each {A St : Type} (l : list A) (body : St -> A -> result St)
  (s : St) : result St :=
  match l with
  | [] => Ok s
  | a :: l' => s' ← body s a; for_each l' body s'
  end.

(** [range(lo, hi)] and [range(hi)] over Python integers. *)
Definition py_range (lo hi : Z) : list Z :=
  map (fun i : nat => lo + Z.of_nat i) (seq 0 (Z.to_nat (hi - lo))).

(** [v in range(n)] for an integer [v]. *)
Definition in_range (v n : Z) : bool := (0 <=? v) && (v <? n).

(** [values[i]] on a Python list: negative indices count from the end. *)
Definition py_index {A : Type} (values : list A) (i : Z) : result A :=
  let j := if i <? 0 then Z.of_nat (length values) + i else i in
  if j <? 0 then Raise IndexError
  else match values !! Z.to_nat j with
       | Some v => Ok v
       | None => Raise IndexError
       end.

(** ** class Direction(IntEnum) *)

Module Direction.

Inductive t : Type := N | NE | E | SE | S | SW | W | NW.

#[global] Instance t_eq_dec : EqDecision t.
Proof. solve_decision. Defined.

(** The integer behind each member. *)
Definition value (d : t) : Z :=
  match d with
  | N => 0 | NE => 1 | E => 2 | SE => 3
  | S => 4 | SW => 5 | W => 6 | NW => 7
  end.

(** [Direction(n)]: the member whose value is [n], ValueError otherwise. *)
Definition of_value (n : Z) : result t :=
  match n with
  | 0 => Ok N | 1 => Ok NE | 2 => Ok E | 3 => Ok SE
  | 4 => Ok S | 5 => Ok SW | 6 => Ok W | 7 => Ok NW
  | _ => Raise ValueError
  end.

(** The opposite compass point, as a table. *)
Definition reverse (d : t) : t :=
  match d with
  | N => S | NE => SW | E => W | SE => NW
  | S => N | SW => NE | W => E | NW => SE
  end.

End Direction.

(** ** Float arithmetic used by [rotate]

    [degrees // 45] is an integer; adding [0.5] or [-0.5] to it converts it
    to a binary64 float and adds in binary64, and [int] truncates the sum
    toward zero. *)

(** [float(n)]: the binary64 nearest to the integer [n], a tie going to the
    even significand, and OverflowError when that lies beyond the largest
    float.  The float is given by its value, which is an integer. *)
Definition float_of_int (n : Z) : result Z :=
  let a := Z.abs n in
  let bits := Z.log2 a + 1 in
  if bits <=? 53 then Ok n
  else
    let e := bits - 53 in
    let q := a / 2 ^ e in
    let r := a mod 2 ^ e in
    let half := 2 ^ (e - 1) in
    let q' :=
      if r <? half then q
      else if half <? r then q + 1
      else if Z.even q then q else q + 1 in
    if 2 ^ 1024 <=? q' * 2 ^ e then Raise OverflowError
    else Ok (Z.sgn n * (q' * 2 ^ e)).

(** The binary64 sum [f + h] of an integer-valued float [f] and a half [h]
    ([0.5] or [-0.5]) that does not point toward zero.  Below 2^52 the sum
    is itself a float.  From 2^52 on, floats are whole numbers: the sum
    lies half-way between [f] and the next one and goes to the even one of
    the two.  From 2^53 on, floats are at least 2 apart and [f] is the
    nearest. *)
Definition float_add_half (f : Z) (h : Q) : Q :=
  if Z.abs f <? 2 ^ 52 then Qplus (inject_Z f) h
  else if Z.abs f <? 2 ^ 53 then
    inject_Z (if Z.even f then f
              else if Qle_bool 0 h then f + 1 else f - 1)
  else inject_Z f.

(** [n + q] for an integer [n] and a float [q] that is a half. *)
Definition float_add_int (n : Z) (q : Q) : result Q :=
  f ← float_of_int n; Ok (float_add_half f q).

(** [int(q)]: truncation toward zero. *)
Definition int_of_float (q : Q) : Z := Z.quot (Qnum q) (Zpos (Qden q)).

(** ** The Polars frame and the AoCMap dataclass *)

(** A Polars frame is its list of columns, each holding one value per
    row. *)
Abbreviation DataFrame V := (list (list V)).

Section Map.

(** Cell values are arbitrary Python objects; [py_len_value v] is [len(v)]
    when the object has a length ([str], [list], ...) and [None] when [len]
    raises TypeError ([int], [float], [None], ...). *)
Context {V : Type}.
Variable py_len_value : V -> option nat.

(** [cast col v] is what column [col] of the frame stores when [v] is
    written into it: [v] converted to the column's dtype, which is [v]
    itself when the column can hold it and the null value when the
    conversion fails.  The dtypes are those the frame was built with; no
    method of this module changes them. *)
Variable cast : Z -> V -> V.

Definition df_width (d : DataFrame V) : Z := Z.of_nat (length d).

Definition df_height (d : DataFrame V) : Z :=
  match d with
  | [] => 0
  | c :: _ => Z.of_nat (length c)
  end.

(** [df.shape] is (rows, columns). *)
Definition df_shape (d : DataFrame V) : Z * Z := (df_height d, df_width d).

(** A negative index counts from the end. *)
Definition from_end (i n : Z) : Z := if i <? 0 then i + n else i.

(** [df[row, col]]: a negative index counts from the end, and an index
    that still falls outside the frame raises. *)
Definition df_getitem (d : DataFrame V) (row col : Z) : result V :=
  let col := from_end col (df_width d) in
  let row := from_end row (df_height d) in
  if in_range col (df_width d) && in_range row (df_height d) then
    match d !! Z.to_nat col ≫= (fun c => c !! Z.to_nat row) with
    | Some v => Ok v
    | None => Raise IndexError
    end
  else Raise IndexError.

(** [df[row, col] = v]: in-place mutation of one cell, which receives [v]
    cast to the dtype of its column.  The indices [update] issues from an
    enclosed cursor lie inside the frame, and the write is modelled for
    those: every other index is an error here. *)
Definition df_setitem (d : DataFrame V) (row col : Z) (v : V)
  : result (DataFrame V) :=
  if in_range col (df_width d) && in_range row (df_height d) then
    match d !! Z.to_nat col with
    | Some c => Ok (<[Z.to_nat col := <[Z.to_nat row := cast col v]> c]> d)
    | None => Raise IndexError
    end
  else Raise IndexError.

Record AoCMap : Type := mkAoCMap {
  df : DataFrame V;
  x : Z;
  y : Z;
  heading : Direction.t
}.

Definition x_max (m : AoCMap) : Z := snd (df_shape (df m)).

Definition y_max (m : AoCMap) : Z := fst (df_shape (df m)).

Definition shape (m : AoCMap) : Z * Z := (x_max m, y_max m).

Definition position (m : AoCMap) : Z * Z := (x m, y m).

Definition encloses (m : AoCMap) (x0 y0 : Z) : bool :=
  in_range x0 (x_max m) && in_range y0 (y_max m).

(** [__getitem__]: the bounds-checked read [m[x, y]]. *)
Definition getitem (m : AoCMap) (indices : Z * Z) : result V :=
  let '(x0, y0) := indices in
  if negb (in_range x0 (x_max m)) || negb (in_range y0 (y_max m)) then
    Raise OutOfBounds
  else df_getitem (df m) y0 x0.

(** The class defines [__getitem__] only.  Without a [__setitem__], Python
    rejects the item assignment [m[x, y] = v] with TypeError before the
    indices are looked at, and the object is left as it was. *)
Definition setitem (m : AoCMap) (indices : Z * Z) (v : V) : result AoCMap :=
  Raise TypeError.

(** The [position] setter. *)
Definition set_position (m : AoCMap) (value : Z * Z) : result AoCMap :=
  let '(x_new, y_new) := value in
  if negb (encloses m x_new y_new) then Raise OutOfBounds
  else Ok (mkAoCMap (df m) x_new y_new (heading m)).

Definition at_edge (m : AoCMap) : bool :=
  ((x m =? 0) || (x m =? x_max m - 1)) || ((y m =? 0) || (y m =? y_max m - 1)).

(** ** look *)

(** What [look] returns: the bare cell under the cursor for [steps == 0],
    a list otherwise.  ([case _] would return [None]; no member of the
    enumeration reaches it.) *)
Inductive LookResult : Type :=
| Cell (v : V)
| Cells (vs : list V).

(** [len(...)] of what [look] returned. *)
Definition py_len (r : LookResult) : result Z :=
  match r with
  | Cells vs => Ok (Z.of_nat (length vs))
  | Cell v =>
      match py_len_value v with
      | Some n => Ok (Z.of_nat n)
      | None => Raise TypeError
      end
  end.

(** [min(steps, b)] where [steps] may be [math.inf] (here [None]). *)
Definition min_steps (steps : option Z) (b : Z) : Z :=
  match steps with
  | None => b
  | Some s => Z.min s b
  end.

Definition look (m : AoCMap) (steps : option Z)
  (direction : option Direction.t) : result LookResult :=
  let direction := default (heading m) direction in
  if bool_decide (steps = Some 0) then
    v ← df_getitem (df m) (y m) (x m); Ok (Cell v)
  else
    '(direction, steps) ←
      match steps with
      | Some s =>
          if s <? 0 then
            d ← Direction.of_value ((Direction.value direction + 4) mod 8);
            Ok (d, Some (Z.abs s))
          else Ok (direction, steps)
      | None => Ok (direction, steps)
      end;
    let max_steps_N := min_steps steps (y m) in
    let max_steps_E := min_steps steps ((x_max m - 1) - x m) in
    let max_steps_S := min_steps steps ((y_max m - 1) - y m) in
    let max_steps_W := min_steps steps (x m) in
    match direction with
    | Direction.N =>
        let max_steps := py_range 1 (max_steps_N + 1) in
        vs ← comprehension (fun i => df_getitem (df m) (y m - i) (x m))
             max_steps;
        Ok (Cells vs)
    | Direction.NE =>
        let max_steps := py_range 1 (Z.min max_steps_N max_steps_E + 1) in
        vs ← comprehension (fun i => df_getitem (df m) (y m - i) (x m + i))
             max_steps;
        Ok (Cells vs)
    | Direction.E =>
        let max_steps := py_range 1 (max_steps_E + 1) in
        vs ← comprehension (fun i => df_getitem (df m) (y m) (x m + i))
             max_steps;
        Ok (Cells vs)
    | Direction.SE =>
        let max_steps := py_range 1 (Z.min max_steps_S max_steps_E + 1) in
        vs ← comprehension (fun i => df_getitem (df m) (y m + i) (x m + i))
             max_steps;
        Ok (Cells vs)
    | Direction.S =>
        let max_steps := py_range 1 (max_steps_S + 1) in
        vs ← comprehension (fun i => df_getitem (df m) (y m + i) (x m))
             max_steps;
        Ok (Cells vs)
    | Direction.SW =>
        let max_steps := py_range 1 (Z.min max_steps_S max_steps_W + 1) in
        vs ← comprehension (fun i => df_getitem (df m) (y m + i) (x m - i))
             max_steps;
        Ok (Cells vs)
    | Direction.W =>
        let max_steps := py_range 1 (max_steps_W + 1) in
        vs ← comprehension (fun i => df_getitem (df m) (y m) (x m - i))
             max_steps;
        Ok (Cells vs)
    | Direction.NW =>
        let max_steps := py_range 1 (Z.min max_steps_N max_steps_W + 1) in
        vs ← comprehension (fun i => df_getitem (df m) (y m - i) (x m - i))
             max_steps;
        Ok (Cells vs)
    end.

(** ** update *)

(** The loop body shared by the eight branches: [self.df[row, col] =
    values[i]]. *)
Definition write_cell (values : list V) (row col : Z -> Z)
  (d : DataFrame V) (i : Z) : result (DataFrame V) :=
  v ← py_index values i; df_setitem d (row i) (col i) v.

Definition update (m : AoCMap) (values : list V) (offset : Z)
  (direction : option Direction.t) : result AoCMap :=
  let steps := Z.of_nat (length values) in
  let direction := default (heading m) direction in
  '(direction, offset) ←
    (if offset <? 0 then
       d ← Direction.of_value ((Direction.value direction + 4) mod 8);
       Ok (d, Z.abs offset)
     else Ok (direction, offset));
  let max_steps_N := Z.min steps (y m + 1 - offset) in
  let max_steps_E := Z.min steps (x_max m - x m - offset) in
  let max_steps_S := Z.min steps (y_max m - y m - offset) in
  let max_steps_W := Z.min steps (x m + 1 - offset) in
  df' ←
    match direction with
    | Direction.N =>
        let max_steps := py_range 0 max_steps_N in
        for_each max_steps
          (write_cell values (fun i => y m - i - offset) (fun i => x m))
          (df m)
    | Direction.NE =>
        let max_steps := py_range 0 (Z.min max_steps_N max_steps_E) in
        for_each max_steps
          (write_cell values (fun i => y m - i - offset)
             (fun i => x m + i + offset))
          (df m)
    | Direction.E =>
        let max_steps := py_range 0 max_steps_E in
        for_each max_steps
          (write_cell values (fun i => y m) (fun i => x m + i + offset))
          (df m)
    | Direction.SE =>
        let max_steps := py_range 0 (Z.min max_steps_S max_steps_E) in
        for_each max_steps
          (write_cell values (fun i => y m + i + offset)
             (fun i => x m + i + offset))
          (df m)
    | Direction.S =>
        let max_steps := py_range 0 max_steps_S in
        for_each max_steps
          (write_cell values (fun i => y m + i + offset) (fun i => x m))
          (df m)
    | Direction.SW =>
        let max_steps := py_range 0 (Z.min max_steps_S max_steps_W) in
        for_each max_steps
          (write_cell values (fun i => y m + i + offset)
             (fun i => x m - i - offset))
          (df m)
    | Direction.W =>
        let max_steps := py_range 0 max_steps_W in
        for_each max_steps
          (write_cell values (fun i => y m) (fun i => x m - i - offset))
          (df m)
    | Direction.NW =>
        let max_steps := py_range 0 (Z.min max_steps_N max_steps_W) in
        for_each max_steps
          (write_cell values (fun i => y m - i - offset)
             (fun i => x m - i - offset))
          (df m)
    end;
  Ok (mkAoCMap df' (x m) (y m) (heading m)).

(** ** walk *)

Definition walk (m : AoCMap) (steps : Z) (direction : option Direction.t)
  : result AoCMap :=
  let direction := default (heading m) direction in
  seen ← look m (Some steps) (Some direction);
  n ← py_len seen;
  let path_length := Z.min steps n in
  match direction with
  | Direction.N =>
      Ok (mkAoCMap (df m) (x m) (y m - path_length) (heading m))
  | Direction.NE =>
      Ok (mkAoCMap (df m) (x m + path_length) (y m - path_length) (heading m))
  | Direction.E =>
      Ok (mkAoCMap (df m) (x m + path_length) (y m) (heading m))
  | Direction.SE =>
      Ok (mkAoCMap (df m) (x m + path_length) (y m + path_length) (heading m))
  | Direction.S =>
      Ok (mkAoCMap (df m) (x m) (y m + path_length) (heading m))
  | Direction.SW =>
      Ok (mkAoCMap (df m) (x m - path_length) (y m + path_length) (heading m))
  | Direction.W =>
      Ok (mkAoCMap (df m) (x m - path_length) (y m) (heading m))
  | Direction.NW =>
      Ok (mkAoCMap (df m) (x m - path_length) (y m - path_length) (heading m))
  end.

(** ** rotate *)

Definition sign_adjustment (degrees : Z) : Q :=
  if 0 <? degrees then 1 # 2 else Qopp (1 # 2).

(** [int(degrees // 45 + sign_adjustment)]. *)
Definition rotate_steps (degrees : Z) : result Z :=
  sum ← float_add_int (degrees / 45) (sign_adjustment degrees);
  Ok (int_of_float sum).

Definition rotate (m : AoCMap) (degrees : Z) : result AoCMap :=
  steps ← rotate_steps degrees;
  let new_heading := (Direction.value (heading m) + steps) mod 8 in
  h ← Direction.of_value new_heading;
  Ok (mkAoCMap (df m) (x m) (y m) h).

End Map.

Arguments AoCMap V : clear implicits.
Arguments LookResult V : clear implicits.

(** ** Concrete cell values: the objects a parsed puzzle grid holds *)

Inductive pyval : Type :=
| PyInt (n : Z)
| PyStr (s : string)
| PyNone.

(** [len(v)]: defined on [str], TypeError on [int] and [None]. *)
Definition pyval_len (v : pyval) : option nat :=
  match v with
  | PyStr s => Some (String.length s)
  | PyInt _ => None
  | PyNone => None
  end.

(** The cast of a column of dtype Int64, the dtype of a column built from
    Python integers: an integer that fits in 64 bits is kept, null stays
    null, and a text or an integer out of range becomes null. *)
Definition int64_cast (col : Z) (v : pyval) : pyval :=
  match v with
  | PyInt n => if (- 2 ^ 63 <=? n) && (n <? 2 ^ 63) then PyInt n else PyNone
  | PyStr _ => PyNone
  | PyNone => PyNone
  end.

(** The frame of the module's own demonstration: eight columns [col0] ..
    [col7], column [i] holding [10*i .. 10*i+9]. *)
Definition demo_df : DataFrame pyval :=
  map (fun i : Z => map (fun j : Z => PyInt (10 * i + j)) (py_range 0 10))
      (py_range 0 8).

Definition demo_map : AoCMap pyval := mkAoCMap demo_df 0 0 Direction.N.

(** The demonstration navigator moved to the bottom-left corner [(0, 9)]. *)
Definition demo_corner : AoCMap pyval := mkAoCMap demo_df 0 9 Direction.N.

(** A three by three frame of one-character strings, as [create_polars]
    builds with its default [dtype=str]. *)
Definition char_df : DataFrame pyval :=
  [ [PyStr "a"; PyStr "d"; PyStr "g"];
    [PyStr "b"; PyStr "e"; PyStr "h"];
    [PyStr "c"; PyStr "f"; PyStr "i"] ].

Definition char_map : AoCMap pyval := mkAoCMap char_df 0 0 Direction.N.

(** What the specification asks of [rotate]: round [degrees / 45] half away
    from zero, [floor(degrees/45 + 0.5)] for positive and
    [ceil(degrees/45 - 0.5)] for negative degrees. *)
Definition spec_round_half_away (degrees : Z) : Z :=
  if 0 <? degrees then Qfloor (Qplus (degrees # 45) (1 # 2))
  else Qceiling (Qminus (degrees # 45) (1 # 2)).

(** ** element_positions *)

Section ElementPositions.

Context {V : Type} `{EqDecision V}.

(** [a < b] on cell values, as [sorted] applies it to the keys.  The values
    of one grid are taken to be mutually comparable; a grid mixing values
    Python cannot order makes [sorted] raise TypeError, which this section
    does not model. *)
Variable py_lt : V -> V -> bool.

(** A dict is the list of its items in insertion order. *)
Fixpoint dict_get {A : Type} (k : V) (items : list (V * A)) : option A :=
  match items with
  | [] => None
  | (k', a) :: rest => if decide (k = k') then Some a else dict_get k rest
  end.

(** [return_value[k].append(p)] on a [defaultdict(list)]: a missing key
    is first given the empty list. *)
Fixpoint defaultdict_append (k : V) (p : Z * Z)
  (items : list (V * list (Z * Z))) : list (V * list (Z * Z)) :=
  match items with
  | [] => [(k, [p])]
  | (k', ps) :: rest =>
      if decide (k = k') then (k', ps ++ [p]) :: rest
      else (k', ps) :: defaultdict_append k p rest
  end.

(** [sorted] on items with distinct keys orders them by key alone; it is
    rendered as a stable insertion sort. *)
Fixpoint sorted_insert {A : Type} (it : V * A) (items : list (V * A))
  : list (V * A) :=
  match items with
  | [] => [it]
  | it' :: rest =>
      if py_lt (fst it') (fst it) then it' :: sorted_insert it rest
      else it :: items
  end.

Definition sorted {A : Type} (items : list (V * A)) : list (V * A) :=
  foldr sorted_insert [] items.

Definition element_positions (m : AoCMap V)
  : result (list (V * list (Z * Z))) :=
  return_value ←
    for_each (py_range 0 (x_max m))
      (fun rv x0 =>
         for_each (py_range 0 (y_max m))
           (fun rv y0 =>
              v ← df_getitem (df m) y0 x0;
              Ok (defaultdict_append v (x0, y0) rv))
           rv)
      [];
  Ok (sorted return_value).

End ElementPositions.

Section ElementPositionsVocabulary.

Context {V : Type} `{EqDecision V}.
Implicit Types (m : AoCMap V) (items : list (V * list (Z * Z))).

(** All coordinates of the grid, column by column. *)
Definition all_cells m : list (Z * Z) :=
  x0 ← py_range 0 (x_max m); pair x0 <$> py_range 0 (y_max m).

(** Whether the cell at [p] holds [k]. *)
Definition holds m (k : V) (p : Z * Z) : bool :=
  match df_getitem (df m) (snd p) (fst p) with
  | Ok v => bool_decide (v = k)
  | Raise _ => false
  end.

Definition listed (k : V) items : list (Z * Z) := default [] (dict_get k items).

(** The loop body of [element_positions] over a list of cells. *)
Definition collect m (rv : list (V * list (Z * Z))) (p : Z * Z)
  : result (list (V * list (Z * Z))) :=
  v ← df_getitem (df m) (snd p) (fst p);
  Ok (defaultdict_append v (fst p, snd p) rv).

(** Column-major order on coordinates: by column, then by row. *)
Definition column_major_lt (p q : Z * Z) : Prop :=
  fst p < fst q \/ (fst p = fst q /\ snd p < snd q).

(** Items in ascending order of their keys. *)
Definition keys_ascending (py_lt : V -> V -> bool) items : Prop :=
  StronglySorted (fun a b => py_lt (fst a) (fst b) = true) items.

End ElementPositionsVocabulary.

(** ** aoc_tester: class AoCTester *)

Module AoCTester.

(** What a run can end with: the [assert] failing, or an exception of the
    tested function or of [data[:5]] passing through. *)
Inductive failure : Type :=
| AssertionError
| Propagated (e : exn).

Section Tester.

(** [Data] is the type of the test inputs and [Shown] what [data[:5]]
    evaluates to; [slice5 data] raises when the data cannot be sliced.
    The tested function is a function of its argument alone and may
    raise.  Expected and actual outputs are integers. *)
Context {Data Shown : Type}.
Variable slice5 : Data -> result Shown.
Variable test_function : Data -> result Z.

Record t : Type := mk { test_cases : list (Data * Z) }.

(** [field(default_factory=list)]. *)
Definition new : t := mk [].

Definition add_test_case (self : t) (data : Data) (output : Z) : t :=
  mk (test_cases self ++ [(data, output)]).

Definition clear_test_case (self : t) : t := mk [].

(** The lines [run_tests] prints. *)
Inductive printed : Type :=
| Warning
| ShowData (shown : Shown)
| ShowExpected (expected_output : Z)
| ShowActual (actual_output : Z)
| ShowEqual (outputs_equal : bool).

(** The [for] loop of [run_tests]: the lines printed so far are threaded
    through, and the loop stops at the first exception.  ([assert] is
    taken as enabled, that is Python runs without [-O].) *)
Fixpoint run_cases (cases : list (Data * Z)) (out : list printed)
  : list printed * option failure :=
  match cases with
  | [] => (out, None)
  | test_case :: rest =>
      let data := fst test_case in
      let expected_output := snd test_case in
      match test_function data with
      | Raise e => (out, Some (Propagated e))
      | Ok actual_output =>
          let outputs_equal := expected_output =? actual_output in
          match slice5 data with
          | Raise e => (out, Some (Propagated e))
          | Ok shown =>
              let out' :=
                out ++ [ShowData shown; ShowExpected expected_output;
                        ShowActual actual_output; ShowEqual outputs_equal] in
              if outputs_equal then run_cases rest out'
              else (out', Some AssertionError)
          end
      end
  end.

(** [run_tests]: what was printed, and the exception raised if any. *)
Definition run_tests (self : t) : list printed * option failure :=
  let out :=
    match test_cases self with
    | [] => [Warning]
    | _ => []
    end in
  run_cases (test_cases self) out.

(** A test case passes: the function returns the expected output and the
    data can be shown. *)
Definition passes (test_case : Data * Z) : Prop :=
  test_function (fst test_case) = Ok (snd test_case) /\
  exists shown, slice5 (fst test_case) = Ok shown.

(** The four lines printed for a case on which the function returned. *)
Definition report (test_case : Data * Z) : list printed :=
  match test_function (fst test_case), slice5 (fst test_case) with
  | Ok actual_output, Ok shown =>
      [ShowData shown; ShowExpected (snd test_case);
       ShowActual actual_output;
       ShowEqual (snd test_case =? actual_output)]
  | _, _ => []
  end.

End Tester.

Arguments t Data : clear implicits.
Arguments printed Shown : clear implicits.

End AoCTester.

(** ** aoc_data: class AoCData *)

Module AoCData.

Section Data.

(** A Python [str] is a list of characters (code points).  [isspace] and
    [isdigit] are the [str] predicates of those names on one character,
    [decimal_value c] is the value [int] gives the character [c] ([None]
    when [int] rejects it, as it does digits that are not decimals), and
    [int_max_str_digits] is the interpreter's limit on the length of a
    string [int] converts (4300 unless configured, 0 for no limit). *)
Context {char : Type} `{EqDecision char}.
Variable isspace : char -> bool.
Variable isdigit : char -> bool.
Variable decimal_value : char -> option Z.
Variable int_max_str_digits : nat.

Fixpoint drop_while (f : char -> bool) (s : list char) : list char :=
  match s with
  | [] => []
  | c :: s' => if f c then drop_while f s' else s
  end.

(** [s.strip()]: leading and trailing whitespace removed. *)
Definition strip (s : list char) : list char :=
  rev (drop_while isspace (rev (drop_while isspace s))).

Record t : Type := mk { raw_data : list char }.

(** [AoCData(raw_data)]: the dataclass constructor, then [__post_init__]. *)
Definition new (raw : list char) : t := mk (strip raw).

(** [int(text)] for a text of [isdigit] characters: ValueError when it is
    empty, longer than the limit, or holds a character that is not a
    decimal digit. *)
Definition int_of_digits (text : list char) : result Z :=
  match text with
  | [] => Raise ValueError
  | _ =>
      if (0 <? int_max_str_digits)%nat
         && (int_max_str_digits <? length text)%nat
      then Raise ValueError
      else
        match mapM decimal_value text with
        | Some ds => Ok (foldl (fun acc d => 10 * acc + d) 0 ds)
        | None => Raise ValueError
        end
  end.

Definition as_int (self : t) : result Z :=
  int_of_digits (List.filter isdigit (raw_data self)).

Definition as_string (self : t) : list char := raw_data self.

(** Whether [sep] starts [s]. *)
Fixpoint startswith (sep s : list char) : bool :=
  match sep, s with
  | [], _ => true
  | a :: sep', b :: s' => bool_decide (a = b) && startswith sep' s'
  | _ :: _, [] => false
  end.

(** [s.split(sep)] for a non-empty [sep]: cut at each leftmost occurrence
    of [sep], scanning on after it.  [skip] counts the characters of a
    found separator still to pass over, [piece] is the piece being read. *)
Fixpoint split_from (sep : list char) (skip : nat) (piece s : list char)
  : list (list char) :=
  match s with
  | [] => [piece]
  | c :: s' =>
      match skip with
      | Datatypes.S k => split_from sep k piece s'
      | O =>
          if startswith sep s
          then piece :: split_from sep (length sep - 1) [] s'
          else split_from sep 0 (piece ++ [c]) s'
      end
  end.

Definition split (sep s : list char) : list (list char) :=
  split_from sep 0 [] s.

(** [s.split()] and [s.split(None)]: the maximal runs of characters that
    are not whitespace. *)
Fixpoint split_whitespace (piece s : list char) : list (list char) :=
  match s with
  | [] => match piece with [] => [] | _ => [piece] end
  | c :: s' =>
      if isspace c then
        match piece with
        | [] => split_whitespace [] s'
        | _ => piece :: split_whitespace [] s'
        end
      else split_whitespace (piece ++ [c]) s'
  end.

(** [create_tuple(dtype, separator)]: [separator] is [None], [''] or a
    non-empty string; [dtype] converts each piece and may raise. *)
Definition create_tuple {D : Type} (dtype : list char -> result D)
  (separator : option (list char)) (self : t) : result (list D) :=
  comprehension dtype
    (match separator with
     | Some [] => (fun c => [c]) <$> raw_data self
     | Some sep => split sep (raw_data self)
     | None => split_whitespace [] (raw_data self)
     end).

(** [sep.join(pieces)]. *)
Fixpoint join (sep : list char) (pieces : list (list char)) : list char :=
  match pieces with
  | [] => []
  | [piece] => piece
  | piece :: rest => piece ++ sep ++ join sep rest
  end.

(** The number a list of decimal digit values writes. *)
Definition decimal (ds : list Z) : Z := foldl (fun acc d => 10 * acc + d) 0 ds.

End Data.

Arguments t char : clear implicits.

End AoCData.

(** ** Concrete instances used to exercise the statements *)

(** A two-column integer grid with repeated values. *)
Definition tally_map : AoCMap Z :=
  mkAoCMap [[3; 1; 3]; [1; 2; 3]] 0 0 Direction.N.

(** A tested function and the [data[:5]] of a list of integers. *)
Definition sum_of (data : list Z) : result Z := Ok (foldr Z.add 0 data).

Definition first_five (data : list Z) : result (list Z) := Ok (take 5 data).

(** ASCII text as a list of code points, with the three character tests
    restricted to ASCII. *)
Definition ascii_isspace (c : Z) : bool :=
  (c =? 32) || ((9 <=? c) && (c <=? 13)) || ((28 <=? c) && (c <=? 31)).

Definition ascii_isdigit (c : Z) : bool := (48 <=? c) && (c <=? 57).

Definition ascii_decimal_value (c : Z) : option Z :=
  if ascii_isdigit c then Some (c - 48) else None.

(** ** Vocabulary of the statements *)

(** The degrees whose quotient by 45 is small enough for the float sum in
    [rotate] to be exact. *)
Definition exact_turn (degrees : Z) : Prop := Z.abs (degrees / 45) < 2 ^ 52.

(** The text [sep] occurs in the text [s] at index [j]. *)
Definition occurs_at {char : Type} (sep s : list char) (j : nat) : Prop :=
  take (length sep) (drop j s) = sep.

Section Vocabulary.

Context {V : Type}.

(** Every column of the frame has the frame's height. *)
Definition rectangular (d : DataFrame V) : bool :=
  forallb (fun c => Z.of_nat (length c) =? df_height d) d.

(** The cursor lies on the grid. *)
Definition enclosed (m : AoCMap V) : Prop := encloses m (x m) (y m) = true.

(** The unit step of a direction along each axis: x grows to the east,
    y grows to the south. *)
Definition dx (d : Direction.t) : Z :=
  match d with
  | Direction.N | Direction.S => 0
  | Direction.NE | Direction.E | Direction.SE => 1
  | Direction.SW | Direction.W | Direction.NW => -1
  end.

Definition dy (d : Direction.t) : Z :=
  match d with
  | Direction.E | Direction.W => 0
  | Direction.SE | Direction.S | Direction.SW => 1
  | Direction.NW | Direction.N | Direction.NE => -1
  end.

(** Remaining distance from the cursor to the grid boundary along each
    axis, and along a direction: a diagonal is bounded by the smaller of its
    two axes. *)
Definition room_N (m : AoCMap V) : Z := y m.
Definition room_E (m : AoCMap V) : Z := x_max m - 1 - x m.
Definition room_S (m : AoCMap V) : Z := y_max m - 1 - y m.
Definition room_W (m : AoCMap V) : Z := x m.

Definition steps_to_boundary (m : AoCMap V) (d : Direction.t) : Z :=
  match d with
  | Direction.N => room_N m
  | Direction.NE => Z.min (room_N m) (room_E m)
  | Direction.E => room_E m
  | Direction.SE => Z.min (room_S m) (room_E m)
  | Direction.S => room_S m
  | Direction.SW => Z.min (room_S m) (room_W m)
  | Direction.W => room_W m
  | Direction.NW => Z.min (room_N m) (room_W m)
  end.

(** Number of cells on the grid at distance [o], [o+1], ... from the cursor
    in direction [d]. *)
Definition cells_from (m : AoCMap V) (d : Direction.t) (o : Z) : Z :=
  Z.max 0 (steps_to_boundary m d + 1 - o).

(** The coordinates [k] steps from the cursor in direction [d]. *)
Definition ahead (m : AoCMap V) (d : Direction.t) (k : Z) : Z * Z :=
  (x m + k * dx d, y m + k * dy d).

(** A step count that asks [look] for a list in the given direction: a
    positive integer, or none at all (scan to the edge). *)
Definition forward_steps (steps : option Z) : Prop :=
  match steps with
  | None => True
  | Some s => 1 <= s
  end.

(** The navigator as the caller finds it after a call: the returned one, or
    the one before the call when the method raised (every [raise] of this
    module precedes the method's first assignment to [self]). *)
Definition after (m : AoCMap V) (r : result (AoCMap V)) : AoCMap V :=
  match r with
  | Ok m' => m'
  | Raise _ => m
  end.

(** The navigator with its cursor [n] steps further in direction [d]. *)
Definition moved (m : AoCMap V) (d : Direction.t) (n : Z) : AoCMap V :=
  mkAoCMap (df m) (x m + n * dx d) (y m + n * dy d) (heading m).

End Vocabulary.

(** * Properties *)

(** ** Direction arithmetic *)

Lemma of_value_value (d : Direction.t) :
  Direction.of_value (Direction.value d) = Ok d.
Proof. destruct d; reflexivity. Qed.

Lemma of_value_mod8 (n : Z) :
  exists d, Direction.of_value (n mod 8) = Ok d /\ Direction.value d = n mod 8.
Proof.
  assert (Hr : 0 <= n mod 8 < 8) by (apply Z.mod_pos_bound; lia).
  assert (Hc : n mod 8 = 0 \/ n mod 8 = 1 \/ n mod 8 = 2 \/ n mod 8 = 3 \/
               n mod 8 = 4 \/ n mod 8 = 5 \/ n mod 8 = 6 \/ n mod 8 = 7) by lia.
  destruct Hc as [H|[H|[H|[H|[H|[H|[H|H]]]]]]]; rewrite H;
    eexists; (split; [reflexivity|reflexivity]).
Qed.

Lemma of_value_reverse (d : Direction.t) :
  Direction.of_value ((Direction.value d + 4) mod 8) = Ok (Direction.reverse d).
Proof. destruct d; reflexivity. Qed.

Lemma value_inj (d e : Direction.t) :
  Direction.value d = Direction.value e -> d = e.
Proof. destruct d, e; simpl; intros H; try reflexivity; discriminate H. Qed.

(** ** The rounding inside rotate *)

(** Truncating an integer plus or minus one half gives the integer back
    when the half points away from zero. *)
Lemma int_of_float_plus_half (n : Z) :
  0 <= n -> int_of_float (Qplus (inject_Z n) (1 # 2)) = n.
Proof.
  intros Hn. unfold int_of_float, inject_Z, Qplus.
  cbn [Qnum Qden]. change (Z.pos (1 * 2)) with 2. change (1 * 1) with 1.
  rewrite Z.quot_div_nonneg by lia.
  rewrite Z.div_add_l by lia. change (1 / 2) with 0. lia.
Qed.

Lemma int_of_float_minus_half (n : Z) :
  n <= 0 -> int_of_float (Qplus (inject_Z n) (Qopp (1 # 2))) = n.
Proof.
  intros Hn. unfold int_of_float, inject_Z, Qplus, Qopp.
  cbn [Qnum Qden]. change (Z.pos (1 * 2)) with 2. change (- (1) * 1) with (-1).
  replace (n * 2 + -1) with (- (- n * 2 + 1)) by lia.
  rewrite Z.quot_opp_l by lia.
  rewrite Z.quot_div_nonneg by lia.
  rewrite Z.div_add_l by lia. change (1 / 2) with 0. lia.
Qed.

(** Integers of at most 53 bits are floats. *)
Lemma float_of_int_small (n : Z) : Z.abs n < 2 ^ 53 -> float_of_int n = Ok n.
Proof.
  intros Hn. unfold float_of_int.
  assert (Hb : (Z.log2 (Z.abs n) + 1 <=? 53) = true).
  { apply Z.leb_le. destruct (Z.eq_dec (Z.abs n) 0) as [-> | Hz].
    - change (Z.log2 0) with 0. lia.
    - assert (Z.log2 (Z.abs n) < 53); [|lia].
      apply Z.log2_lt_pow2; [lia | exact Hn]. }
  cbv zeta. rewrite Hb. reflexivity.
Qed.

(** While the quotient is below 2^52 the sign adjustment never changes the
    outcome: [rotate] turns by the floor of [degrees / 45]. *)
Lemma rotate_steps_floor (degrees : Z) :
  exact_turn degrees -> rotate_steps degrees = Ok (degrees / 45).
Proof.
  unfold exact_turn. intros Hx.
  assert (H53 : 2 ^ 52 < 2 ^ 53) by reflexivity.
  unfold rotate_steps, float_add_int.
  rewrite float_of_int_small by lia. cbn [mbind result_bind].
  unfold float_add_half.
  replace (Z.abs (degrees / 45) <? 2 ^ 52) with true
    by (symmetry; apply Z.ltb_lt; exact Hx).
  f_equal. unfold sign_adjustment.
  destruct (0 <? degrees) eqn:Hs.
  - apply Z.ltb_lt in Hs. apply int_of_float_plus_half.
    apply Z.div_pos; lia.
  - apply Z.ltb_ge in Hs. apply int_of_float_minus_half.
    apply Z.div_le_upper_bound; lia.
Qed.

Lemma exact_turn_multiple (k : Z) : Z.abs k < 2 ^ 52 -> exact_turn (45 * k).
Proof.
  unfold exact_turn. intros Hk.
  rewrite Z.mul_comm, Z.div_mul by lia. exact Hk.
Qed.

Section RotateFacts.

Context {V : Type}.
Implicit Types m : AoCMap V.

Lemma rotate_total m degrees :
  exact_turn degrees ->
  exists h, rotate m degrees = Ok (mkAoCMap (df m) (x m) (y m) h) /\
    Direction.value h = (Direction.value (heading m) + degrees / 45) mod 8.
Proof.
  intros Hx. unfold rotate. rewrite (rotate_steps_floor degrees Hx).
  cbn [mbind result_bind].
  destruct (of_value_mod8 (Direction.value (heading m) + degrees / 45))
    as (h & Hh & Hv).
  exists h. rewrite Hh. simpl. split; [reflexivity | exact Hv].
Qed.

(** Turning by a whole number of eighths composes additively. *)
Lemma rotate_multiple_of_45 m k :
  Z.abs k < 2 ^ 52 ->
  exists h, rotate m (45 * k) = Ok (mkAoCMap (df m) (x m) (y m) h) /\
    Direction.value h = (Direction.value (heading m) + k) mod 8.
Proof.
  intros Hk.
  destruct (rotate_total m (45 * k) (exact_turn_multiple k Hk))
    as (h & Hr & Hv).
  exists h. split; [exact Hr|].
  rewrite Hv. f_equal. f_equal.
  rewrite Z.mul_comm. apply Z.div_mul. lia.
Qed.

Lemma rotate_360 m : rotate m 360 = Ok m.
Proof.
  destruct (rotate_multiple_of_45 m 8 eq_refl) as (h & Hr & Hv).
  change (45 * 8) with 360 in Hr. rewrite Hr.
  assert (h = heading m) as ->.
  { apply value_inj. rewrite Hv. destruct (heading m); reflexivity. }
  destruct m; reflexivity.
Qed.

Lemma rotate_there_and_back_45 m k :
  Z.abs k < 2 ^ 52 ->
  (m' ← rotate m (45 * k); rotate m' (- (45 * k))) = Ok m.
Proof.
  intros Hk.
  destruct (rotate_multiple_of_45 m k Hk) as (h & Hr & Hv).
  rewrite Hr. cbn [mbind result_bind].
  replace (- (45 * k)) with (45 * (- k)) by lia.
  destruct (rotate_multiple_of_45 (mkAoCMap (df m) (x m) (y m) h) (- k)
              ltac:(lia))
    as (h' & Hr' & Hv').
  rewrite Hr'. simpl in *.
  assert (h' = heading m) as ->.
  { apply value_inj. rewrite Hv', Hv.
    rewrite Zplus_mod_idemp_l.
    replace (Direction.value (heading m) + k + - k)
      with (Direction.value (heading m)) by lia.
    destruct (heading m); reflexivity. }
  destruct m; reflexivity.
Qed.

(** C10: for every heading, [rotate(0)] leaves the heading and the cursor
    position (indeed the whole navigator) unchanged: zero degrees falls in
    the [else] branch of the sign adjustment, and [int(0 - 0.5)] is zero
    compass steps. *)
Theorem rotate_zero_identity m :
  rotate_steps 0 = Ok 0 /\ rotate m 0 = Ok m.
Proof.
  split; [reflexivity|].
  unfold rotate. change (rotate_steps 0) with (Ok 0 : result Z).
  cbn [mbind result_bind]. rewrite Z.add_0_r.
  destruct m as [d cx cy h]; simpl. destruct h; reflexivity.
Qed.

End RotateFacts.

(** On whole eighths of a turn the code and the required rounding agree. *)
Lemma rotate_steps_multiple_of_45 (k : Z) :
  k <> 0 -> Z.abs k < 2 ^ 52 ->
  rotate_steps (45 * k) = Ok (spec_round_half_away (45 * k)).
Proof.
  intros Hk Hsmall.
  rewrite (rotate_steps_floor _ (exact_turn_multiple k Hsmall)).
  f_equal.
  rewrite Z.mul_comm, Z.div_mul by lia.
  unfold spec_round_half_away.
  destruct (0 <? k * 45) eqn:Hs.
  - unfold Qfloor, Qplus. cbn [Qnum Qden].
    change (Z.pos (45 * 2)) with 90. change (Z.pos 45) with 45.
    change (Z.pos 2) with 2. Z.div_mod_to_equations. lia.
  - unfold Qceiling, Qfloor, Qminus, Qplus, Qopp. cbn [Qnum Qden].
    change (Z.pos (45 * 2)) with 90. change (Z.pos 45) with 45.
    change (Z.pos 2) with 2. Z.div_mod_to_equations. lia.
Qed.

(** C5: the rounding is not the one required.  From heading N, [rotate(30)]
    keeps heading N (zero steps) where half-away-from-zero rounding of
    30/45 gives one step and heading NE; [rotate(-20)] turns to NW (minus
    one step) where the required rounding gives zero steps and heading N.
    The floor division [degrees // 45] has already discarded the fraction
    when the half is added. *)
Theorem rotate_rounding_diverges :
  (rotate_steps 30 = Ok 0 /\ spec_round_half_away 30 = 1 /\
   rotate demo_map 30 = Ok demo_map /\
   Direction.of_value ((Direction.value (heading demo_map)
                        + spec_round_half_away 30) mod 8) = Ok Direction.NE) /\
  (rotate_steps (-20) = Ok (-1) /\ spec_round_half_away (-20) = 0 /\
   rotate demo_map (-20) = Ok (mkAoCMap demo_df 0 0 Direction.NW)).
Proof. repeat split; vm_compute; reflexivity. Qed.

(** C7: [rotate(d)] followed by [rotate(-d)] does not restore the heading
    when [d] is not a multiple of 45: from heading N, [rotate(30)] then
    [rotate(-30)] ends on NW, because both calls round toward minus
    infinity. *)
Theorem rotate_there_and_back_diverges :
  (m' ← rotate demo_map 30; rotate m' (-30))
  = Ok (mkAoCMap demo_df 0 0 Direction.NW).
Proof. vm_compute; reflexivity. Qed.

(** The concrete turns from the module's demonstration. *)
Lemma rotate_45_from_N :
  rotate demo_map 45 = Ok (mkAoCMap demo_df 0 0 Direction.NE) /\
  rotate demo_map (-45) = Ok (mkAoCMap demo_df 0 0 Direction.NW).
Proof. split; vm_compute; reflexivity. Qed.

(** ** Ranges, comprehensions and loops *)

Lemma py_range_nil (lo hi : Z) : hi <= lo -> py_range lo hi = [].
Proof.
  intros H. unfold py_range.
  replace (Z.to_nat (hi - lo)) with 0%nat by lia. reflexivity.
Qed.

Lemma py_range_snoc (lo hi : Z) :
  lo <= hi -> py_range lo (hi + 1) = py_range lo hi ++ [hi].
Proof.
  intros H. unfold py_range.
  replace (Z.to_nat (hi + 1 - lo)) with (Z.to_nat (hi - lo) + 1)%nat by lia.
  rewrite seq_app, map_app. simpl. do 2 f_equal. lia.
Qed.

Lemma comprehension_snoc {A B : Type} (f : A -> result B) (l : list A)
  (a : A) (bs : list B) (b : B) :
  comprehension f l = Ok bs -> f a = Ok b ->
  comprehension f (l ++ [a]) = Ok (bs ++ [b]).
Proof.
  revert bs. induction l as [|a0 l IH]; intros bs Hl Ha; simpl in *.
  - injection Hl as <-. rewrite Ha. reflexivity.
  - destruct (f a0) as [b0|e]; simpl in *; [|discriminate].
    destruct (comprehension f l) as [bs0|e]; simpl in *; [|discriminate].
    injection Hl as <-. rewrite (IH bs0 eq_refl Ha). reflexivity.
Qed.

Lemma for_each_snoc {A St : Type} (body : St -> A -> result St)
  (l : list A) (a : A) (s s' : St) :
  for_each l body s = Ok s' ->
  for_each (l ++ [a]) body s = body s' a.
Proof.
  revert s. induction l as [|a0 l IH]; intros s Hl; simpl in *.
  - injection Hl as <-. destruct (body s a); reflexivity.
  - destruct (body s a0) as [s0|e]; simpl in *; [|discriminate].
    apply IH, Hl.
Qed.

Lemma in_range_true (v n : Z) : in_range v n = true <-> 0 <= v < n.
Proof. unfold in_range. rewrite andb_true_iff, Z.leb_le, Z.ltb_lt. tauto. Qed.

Lemma in_range_false (v n : Z) : in_range v n = false <-> ~ (0 <= v < n).
Proof.
  rewrite <- in_range_true. destruct (in_range v n); split; done.
Qed.

(** ** The frame *)

Section FrameFacts.

Context {V : Type}.
Implicit Types d : DataFrame V.

Lemma df_height_head d :
  df_height d = match d !! 0%nat with
                | Some c => Z.of_nat (length c)
                | None => 0
                end.
Proof. destruct d; reflexivity. Qed.

Lemma rectangular_lookup d :
  rectangular d = true <->
  forall (i : nat) c, d !! i = Some c -> Z.of_nat (length c) = df_height d.
Proof.
  unfold rectangular. rewrite forallb_forall. split.
  - intros H i c Hi. apply Z.eqb_eq, H.
    apply list_elem_of_In, list_elem_of_lookup. eauto.
  - intros H c Hc. apply Z.eqb_eq.
    apply list_elem_of_In, list_elem_of_lookup in Hc as [i Hi]. eauto.
Qed.

Lemma from_end_nonneg (i n : Z) : 0 <= i -> from_end i n = i.
Proof.
  intros Hi. unfold from_end.
  replace (i <? 0) with false by (symmetry; apply Z.ltb_ge; exact Hi).
  reflexivity.
Qed.

Lemma df_getitem_inside d row col :
  rectangular d = true ->
  0 <= col < df_width d -> 0 <= row < df_height d ->
  exists v, df_getitem d row col = Ok v.
Proof.
  intros Hr Hc Hw. unfold df_getitem.
  rewrite !from_end_nonneg by lia.
  rewrite (proj2 (in_range_true _ _) Hc), (proj2 (in_range_true _ _) Hw).
  simpl. unfold df_width in Hc.
  destruct (d !! Z.to_nat col) as [c|] eqn:Hcol.
  - pose proof (proj1 (rectangular_lookup d) Hr _ _ Hcol) as Hlen. simpl.
    destruct (c !! Z.to_nat row) as [v|] eqn:Hrow; [eauto|].
    apply lookup_ge_None in Hrow. lia.
  - apply lookup_ge_None in Hcol. lia.
Qed.

Lemma df_getitem_nonneg d row col :
  0 <= row -> 0 <= col ->
  df_getitem d row col =
    if in_range col (df_width d) && in_range row (df_height d) then
      match d !! Z.to_nat col ≫= (fun c => c !! Z.to_nat row) with
      | Some v => Ok v
      | None => Raise IndexError
      end
    else Raise IndexError.
Proof.
  intros Hr Hc. unfold df_getitem. rewrite !from_end_nonneg by lia.
  reflexivity.
Qed.

Variable cast : Z -> V -> V.

Lemma df_setitem_inside d row col v :
  rectangular d = true ->
  0 <= col < df_width d -> 0 <= row < df_height d ->
  exists d', df_setitem cast d row col v = Ok d' /\
    rectangular d' = true /\
    df_width d' = df_width d /\ df_height d' = df_height d /\
    df_getitem d' row col = Ok (cast col v) /\
    forall r c, 0 <= r -> 0 <= c -> ~ (r = row /\ c = col) ->
      df_getitem d' r c = df_getitem d r c.
Proof.
  intros Hr Hc Hw. unfold df_setitem.
  rewrite (proj2 (in_range_true _ _) Hc), (proj2 (in_range_true _ _) Hw).
  simpl.
  destruct (d !! Z.to_nat col) as [c0|] eqn:Hcol; cycle 1.
  { apply lookup_ge_None in Hcol. unfold df_width in Hc. lia. }
  pose proof (proj1 (rectangular_lookup d) Hr _ _ Hcol) as Hlen.
  pose proof (lookup_lt_Some _ _ _ Hcol) as Hlt.
  set (d' := <[Z.to_nat col := <[Z.to_nat row := cast col v]> c0]> d).
  assert (Hwid : df_width d' = df_width d).
  { unfold df_width, d'. rewrite length_insert. reflexivity. }
  assert (Hlk : forall i : nat, d' !! i =
            if decide (i = Z.to_nat col)
            then Some (<[Z.to_nat row := cast col v]> c0) else d !! i).
  { intros i. unfold d'. case_decide as Hi.
    - subst i. apply list_lookup_insert_eq. exact Hlt.
    - apply list_lookup_insert_ne. congruence. }
  assert (Hhei : df_height d' = df_height d).
  { rewrite !df_height_head, Hlk. case_decide as Hi; [|reflexivity].
    rewrite length_insert, Hi, Hcol. reflexivity. }
  exists d'. split; [reflexivity|]. split; [|split; [exact Hwid|]].
  { apply rectangular_lookup. intros i c Hi. rewrite Hhei.
    rewrite Hlk in Hi. case_decide.
    - injection Hi as <-. rewrite length_insert. exact Hlen.
    - apply (proj1 (rectangular_lookup d) Hr _ _ Hi). }
  split; [exact Hhei|]. split.
  - rewrite df_getitem_nonneg by lia. rewrite Hwid, Hhei.
    rewrite (proj2 (in_range_true _ _) Hc), (proj2 (in_range_true _ _) Hw).
    simpl. rewrite Hlk. rewrite decide_True by reflexivity. simpl.
    rewrite list_lookup_insert_eq by lia. reflexivity.
  - intros r c Hr0 Hc0 Hne. rewrite !df_getitem_nonneg by lia.
    rewrite Hwid, Hhei.
    destruct (in_range c (df_width d)) eqn:Hc';
      destruct (in_range r (df_height d)) eqn:Hr'; simpl; try reflexivity.
    apply in_range_true in Hc', Hr'.
    rewrite Hlk. case_decide as Hi; [|reflexivity].
    assert (c = col) as -> by lia. rewrite Hcol. simpl.
    rewrite list_lookup_insert_ne by lia. reflexivity.
Qed.

End FrameFacts.

Lemma comprehension_ext {A B : Type} (f g : A -> result B) (l : list A) :
  (forall a, f a = g a) -> comprehension f l = comprehension g l.
Proof.
  intros H. induction l as [|a l IH]; simpl; [reflexivity|].
  rewrite H, IH. reflexivity.
Qed.

Lemma for_each_ext {A St : Type} (f g : St -> A -> result St) (l : list A)
  (s : St) :
  (forall s a, f s a = g s a) -> for_each l f s = for_each l g s.
Proof.
  intros H. revert s. induction l as [|a l IH]; intros s; simpl;
    [reflexivity|].
  rewrite H. destruct (g s a); simpl; [apply IH | reflexivity].
Qed.

Lemma py_index_lookup {A : Type} (values : list A) (i : nat) (v : A) :
  values !! i = Some v -> py_index values (Z.of_nat i) = Ok v.
Proof.
  intros H. unfold py_index. cbv zeta.
  assert (Hi : (Z.of_nat i <? 0) = false) by (apply Z.ltb_ge; lia).
  rewrite !Hi, Nat2Z.id, H. reflexivity.
Qed.

(** ** Reading and writing along a line of cells *)

Section LineFacts.

Context {V : Type}.
Implicit Types d : DataFrame V.

(** Reading cells [1 .. k] of a line that stays on the frame succeeds and
    returns them in order. *)
Lemma read_line_nat d (row col : Z -> Z) (k : nat) :
  rectangular d = true ->
  (forall i, 1 <= i <= Z.of_nat k ->
     0 <= col i < df_width d /\ 0 <= row i < df_height d) ->
  exists vs,
    comprehension (fun i => df_getitem d (row i) (col i))
      (py_range 1 (Z.of_nat k + 1)) = Ok vs /\
    length vs = k /\
    forall (j : nat) v, vs !! j = Some v ->
      df_getitem d (row (Z.of_nat j + 1)) (col (Z.of_nat j + 1)) = Ok v.
Proof.
  intros Hr. induction k as [|k IH]; intros Hin.
  - exists []. rewrite py_range_nil by lia. repeat split. intros j v Hj.
    discriminate Hj.
  - destruct IH as (vs & Hvs & Hlen & Hget).
    { intros i Hi. apply Hin. lia. }
    destruct (df_getitem_inside d (row (Z.of_nat k + 1)) (col (Z.of_nat k + 1)))
      as [v Hv]; [exact Hr | apply Hin; lia | apply Hin; lia |].
    exists (vs ++ [v]).
    replace (Z.of_nat (Datatypes.S k) + 1) with (Z.of_nat k + 1 + 1) by lia.
    rewrite py_range_snoc by lia.
    split; [apply (comprehension_snoc _ _ _ _ _ Hvs Hv)|].
    split; [rewrite length_app; simpl; lia|].
    intros j w Hj. destruct (decide (j < k)%nat) as [Hlt|Hge].
    + rewrite lookup_app_l in Hj by lia. apply Hget, Hj.
    + pose proof (lookup_lt_Some _ _ _ Hj) as Hb.
      rewrite length_app in Hb. simpl in Hb.
      assert (j = k) as -> by lia.
      rewrite lookup_app_r in Hj by lia.
      replace (k - length vs)%nat with 0%nat in Hj by lia.
      injection Hj as <-. exact Hv.
Qed.

Lemma read_line d (row col : Z -> Z) (k : Z) :
  rectangular d = true ->
  (forall i, 1 <= i <= k ->
     0 <= col i < df_width d /\ 0 <= row i < df_height d) ->
  exists vs,
    comprehension (fun i => df_getitem d (row i) (col i))
      (py_range 1 (k + 1)) = Ok vs /\
    Z.of_nat (length vs) = Z.max 0 k /\
    forall (j : nat) v, vs !! j = Some v ->
      df_getitem d (row (Z.of_nat j + 1)) (col (Z.of_nat j + 1)) = Ok v.
Proof.
  intros Hr Hin. destruct (Z_le_gt_dec k 0) as [Hk|Hk].
  - exists []. rewrite py_range_nil by lia. simpl.
    split; [reflexivity|]. split; [lia|]. intros j v Hj. discriminate Hj.
  - destruct (read_line_nat d row col (Z.to_nat k) Hr) as (vs & Hvs & Hl & Hg).
    { intros i Hi. apply Hin. lia. }
    exists vs. rewrite Z2Nat.id in Hvs by lia.
    split; [exact Hvs|]. split; [lia | exact Hg].
Qed.

Variable cast : Z -> V -> V.

(** Writing [values[0 .. k-1]] along a line of distinct cells that stays on
    the frame succeeds, stores each value in its cell and changes nothing
    else. *)
Lemma write_line_nat (values : list V) d (row col : Z -> Z) (k : nat) :
  rectangular d = true ->
  (k <= length values)%nat ->
  (forall i, 0 <= i < Z.of_nat k ->
     0 <= col i < df_width d /\ 0 <= row i < df_height d) ->
  (forall i j, 0 <= i < j -> j < Z.of_nat k ->
     ~ (row i = row j /\ col i = col j)) ->
  exists d',
    for_each (py_range 0 (Z.of_nat k)) (write_cell cast values row col) d = Ok d' /\
    rectangular d' = true /\
    df_width d' = df_width d /\ df_height d' = df_height d /\
    (forall (i : nat) v, (i < k)%nat -> values !! i = Some v ->
       df_getitem d' (row (Z.of_nat i)) (col (Z.of_nat i))
       = Ok (cast (col (Z.of_nat i)) v)) /\
    (forall r c, 0 <= r -> 0 <= c ->
       (forall i, 0 <= i < Z.of_nat k -> ~ (r = row i /\ c = col i)) ->
       df_getitem d' r c = df_getitem d r c).
Proof.
  intros Hr. induction k as [|k IH]; intros Hlen Hin Hinj.
  - exists d. rewrite py_range_nil by lia. simpl.
    repeat split; try done. intros i v Hi. lia.
  - destruct IH as (d1 & Hd1 & Hr1 & Hw1 & Hh1 & Hset1 & Hother1).
    { lia. } { intros i Hi. apply Hin. lia. }
    { intros i j Hij Hj. apply Hinj; lia. }
    destruct (lookup_lt_is_Some_2 values k) as [v Hv]; [lia|].
    destruct (df_setitem_inside cast d1 (row (Z.of_nat k)) (col (Z.of_nat k)) v)
      as (d2 & Hd2 & Hr2 & Hw2 & Hh2 & Hset2 & Hother2);
      [exact Hr1 | rewrite Hw1; apply Hin; lia | rewrite Hh1; apply Hin; lia |].
    exists d2.
    replace (Z.of_nat (Datatypes.S k)) with (Z.of_nat k + 1) by lia.
    rewrite py_range_snoc by lia.
    rewrite (for_each_snoc _ _ _ _ _ Hd1).
    unfold write_cell at 1. rewrite (py_index_lookup _ _ _ Hv). simpl.
    split; [exact Hd2|]. split; [exact Hr2|].
    split; [congruence|]. split; [congruence|]. split.
    + intros i w Hi Hw. destruct (decide (i = k)) as [->|Hne].
      * rewrite Hv in Hw. injection Hw as <-. exact Hset2.
      * pose proof (Hin (Z.of_nat i) ltac:(lia)) as Hi'.
        rewrite Hother2; [apply Hset1; [lia | exact Hw] | lia | lia |].
        apply Hinj; lia.
    + intros r c Hr0 Hc0 Hfree.
      rewrite Hother2 by (try lia; apply Hfree; lia).
      apply Hother1; [lia | lia |]. intros i Hi. apply Hfree. lia.
Qed.

End LineFacts.

(** ** The navigator *)

Section NavigatorFacts.

Context {V : Type}.
Implicit Types m : AoCMap V.

Lemma enclosed_bounds m :
  enclosed m <-> 0 <= x m < x_max m /\ 0 <= y m < y_max m.
Proof.
  unfold enclosed, encloses. rewrite andb_true_iff, !in_range_true. tauto.
Qed.

Lemma encloses_bounds m cx cy :
  encloses m cx cy = true <-> 0 <= cx < x_max m /\ 0 <= cy < y_max m.
Proof. unfold encloses. rewrite andb_true_iff, !in_range_true. tauto. Qed.

(** [steps_to_boundary] counts exactly the cells of the grid that lie ahead:
    the cell [k >= 0] steps away is on the grid iff [k] does not exceed it. *)
Lemma ahead_enclosed m d k :
  enclosed m -> 0 <= k ->
  (encloses m (fst (ahead m d k)) (snd (ahead m d k)) = true
   <-> k <= steps_to_boundary m d).
Proof.
  intros He Hk. apply enclosed_bounds in He. rewrite encloses_bounds.
  unfold ahead, steps_to_boundary, room_N, room_E, room_S, room_W.
  destruct d; simpl; lia.
Qed.

Lemma min_steps_forward (steps : option Z) (b : Z) :
  forward_steps steps -> 0 <= b -> 0 <= min_steps steps b <= b.
Proof. destruct steps; simpl; lia. Qed.

Lemma look_default_direction m steps direction :
  look m steps direction = look m steps (Some (default (heading m) direction)).
Proof. destruct direction; reflexivity. Qed.

Lemma look_branch (f g : Z -> result V) (k k' : Z) :
  (forall i, f i = g i) -> k = k' ->
  (vs ← comprehension f (py_range 1 (k + 1)); Ok (Cells vs))
  = (vs ← comprehension g (py_range 1 (k' + 1)); Ok (Cells vs)).
Proof. intros Hf ->. rewrite (comprehension_ext f g _ Hf). reflexivity. Qed.

(** For a forward step count, the eight branches of [look] are one scan
    along the unit step of the direction. *)
Lemma look_forward m steps d :
  forward_steps steps ->
  look m steps (Some d) =
    vs ← comprehension
           (fun i => df_getitem (df m) (y m + i * dy d) (x m + i * dx d))
           (py_range 1 (min_steps steps (steps_to_boundary m d) + 1));
    Ok (Cells vs).
Proof.
  intros Hs. unfold look.
  assert (Hnz : bool_decide (steps = Some 0) = false).
  { apply bool_decide_eq_false. intros ->. simpl in Hs. lia. }
  rewrite Hnz.
  assert (Hres :
    match steps with
    | Some s =>
        if s <? 0 then
          d0 ← Direction.of_value ((Direction.value (default (heading m) (Some d)) + 4) mod 8);
          Ok (d0, Some (Z.abs s))
        else Ok (default (heading m) (Some d), steps)
    | None => Ok (default (heading m) (Some d), steps)
    end = Ok (d, steps)).
  { destruct steps as [s|]; [|reflexivity]. simpl in Hs.
    replace (s <? 0) with false by (symmetry; apply Z.ltb_ge; lia).
    reflexivity. }
  rewrite Hres. cbn [mbind result_bind].
  unfold steps_to_boundary, room_N, room_E, room_S, room_W.
  destruct d; cbn [dx dy]; apply look_branch;
    try (intros i; f_equal; lia);
    destruct steps; simpl; lia.
Qed.

Lemma steps_to_boundary_nonneg m d : enclosed m -> 0 <= steps_to_boundary m d.
Proof.
  intros He. apply enclosed_bounds in He.
  unfold steps_to_boundary, room_N, room_E, room_S, room_W.
  destruct d; lia.
Qed.

Lemma getitem_enclosed m cx cy :
  encloses m cx cy = true -> getitem m (cx, cy) = df_getitem (df m) cy cx.
Proof.
  intros He. unfold getitem. unfold encloses in He.
  apply andb_true_iff in He as [-> ->]. reflexivity.
Qed.

(** What a forward [look] returns, for an explicit direction. *)
Lemma look_forward_spec m steps d :
  rectangular (df m) = true -> enclosed m -> forward_steps steps ->
  let k := min_steps steps (steps_to_boundary m d) in
  exists vs,
    look m steps (Some d) = Ok (Cells vs) /\
    Z.of_nat (length vs) = k /\
    forall (j : nat) v, vs !! j = Some v ->
      getitem m (ahead m d (Z.of_nat j + 1)) = Ok v.
Proof.
  intros Hr He Hs k.
  pose proof (steps_to_boundary_nonneg m d He) as Hnn.
  pose proof (min_steps_forward steps _ Hs Hnn) as Hk. fold k in Hk.
  rewrite (look_forward m steps d Hs). fold k.
  assert (Hin : forall i, 1 <= i <= k ->
            encloses m (x m + i * dx d) (y m + i * dy d) = true).
  { intros i Hi. apply (ahead_enclosed m d i He); lia. }
  destruct (read_line (df m) (fun i => y m + i * dy d)
              (fun i => x m + i * dx d) k Hr) as (vs & Hvs & Hlen & Hget).
  { intros i Hi. apply Hin, encloses_bounds in Hi. exact Hi. }
  exists vs. rewrite Hvs. cbn [mbind result_bind].
  split; [reflexivity|]. split; [lia|].
  intros j v Hj. unfold ahead. rewrite getitem_enclosed.
  - apply Hget, Hj.
  - apply Hin. apply lookup_lt_Some in Hj. lia.
Qed.

(** C1: from an enclosed cursor on a rectangular grid, for a step count
    [s >= 1] or no step count at all (scan to the edge) and any direction
    (the heading when omitted), [look] returns a list and, being a function
    of the navigator alone, changes nothing; the list holds, in order, the
    values of the cells 1, 2, ..., k steps from the cursor in that
    direction, where k is the number of steps to the boundary when no step
    count is given and min(s, steps to the boundary) otherwise, a diagonal
    being bounded by the smaller of its two axes; so its length is that
    number, and it is empty when no step is available. *)
Theorem look_returns_cells_ahead m steps direction :
  rectangular (df m) = true -> enclosed m -> forward_steps steps ->
  let d := default (heading m) direction in
  let k := match steps with
           | None => steps_to_boundary m d
           | Some s => Z.min s (steps_to_boundary m d)
           end in
  exists vs,
    look m steps direction = Ok (Cells vs) /\
    Z.of_nat (length vs) = k /\
    (forall (j : nat) v, vs !! j = Some v ->
       getitem m (ahead m d (Z.of_nat j + 1)) = Ok v) /\
    (steps_to_boundary m d = 0 -> vs = []).
Proof.
  intros Hr He Hs d k.
  destruct (look_forward_spec m steps d Hr He Hs) as (vs & Hl & Hlen & Hget).
  change (min_steps steps (steps_to_boundary m d)) with k in Hlen.
  exists vs. rewrite look_default_direction. fold d.
  split; [exact Hl|]. split; [exact Hlen|]. split; [exact Hget|].
  intros H0. destruct vs; [reflexivity|].
  simpl in Hlen. unfold k in Hlen. rewrite H0 in Hlen.
  destruct steps as [s|]; simpl in Hs, Hlen; lia.
Qed.

(** C6: for every navigator, every [s > 0] and every direction [d],
    [look(-s, d)] is [look(s, reverse(d))], where [reverse(d)] is the member
    with value [(d + 4) mod 8]. *)
Theorem look_negative_is_reverse m s d :
  0 < s ->
  look m (Some (- s)) (Some d) = look m (Some s) (Some (Direction.reverse d))
  /\ Direction.value (Direction.reverse d) = (Direction.value d + 4) mod 8.
Proof.
  intros Hs. split; [|destruct d; reflexivity].
  unfold look.
  rewrite !bool_decide_eq_false_2 by (intros [= H]; lia).
  replace (- s <? 0) with true by (symmetry; apply Z.ltb_lt; lia).
  replace (s <? 0) with false by (symmetry; apply Z.ltb_ge; lia).
  cbn [default]. rewrite of_value_reverse. cbn [mbind result_bind].
  replace (Z.abs (- s)) with s by lia. reflexivity.
Qed.


Lemma getitem_same_shape m m' cx cy :
  df_width (df m') = df_width (df m) ->
  df_height (df m') = df_height (df m) ->
  (0 <= cy -> 0 <= cx ->
   df_getitem (df m') cy cx = df_getitem (df m) cy cx) ->
  getitem m' (cx, cy) = getitem m (cx, cy).
Proof.
  intros Hw Hh Hg. unfold getitem, x_max, y_max, df_shape. simpl.
  rewrite Hw, Hh.
  destruct (in_range cx (df_width (df m))) eqn:Hx; [|reflexivity].
  destruct (in_range cy (df_height (df m))) eqn:Hy; [|reflexivity].
  apply in_range_true in Hx, Hy. simpl. apply Hg; lia.
Qed.

Lemma encloses_same_shape m m' cx cy :
  df_width (df m') = df_width (df m) ->
  df_height (df m') = df_height (df m) ->
  encloses m' cx cy = encloses m cx cy.
Proof.
  intros Hw Hh. unfold encloses, x_max, y_max, df_shape. simpl.
  rewrite Hw, Hh. reflexivity.
Qed.

Lemma py_range_to_nat (k : Z) : py_range 0 k = py_range 0 (Z.of_nat (Z.to_nat k)).
Proof. unfold py_range. do 2 f_equal. lia. Qed.

(** *** update *)

Variable cast : Z -> V -> V.


Lemma update_default_direction m (values : list V) offset direction :
  update cast m values offset direction
  = update cast m values offset (Some (default (heading m) direction)).
Proof. destruct direction; reflexivity. Qed.

Lemma update_branch m (values : list V) (r r' c c' : Z -> Z) (k k' : Z) :
  (forall i, r i = r' i) -> (forall i, c i = c' i) -> k = k' ->
  (df' ← for_each (py_range 0 k) (write_cell cast values r c) (df m);
   Ok (mkAoCMap df' (x m) (y m) (heading m)))
  = (df' ← for_each (py_range 0 k') (write_cell cast values r' c') (df m);
     Ok (mkAoCMap df' (x m) (y m) (heading m))).
Proof.
  intros Hr Hc ->.
  rewrite (for_each_ext (write_cell cast values r c) (write_cell cast values r' c')).
  - reflexivity.
  - intros d i. unfold write_cell. rewrite Hr, Hc. reflexivity.
Qed.

(** For a non-negative offset, the eight branches of [update] are one loop
    along the unit step of the direction, starting [offset] steps away. *)
Lemma update_forward m (values : list V) offset d :
  0 <= offset ->
  update cast m values offset (Some d) =
    df' ← for_each
            (py_range 0 (Z.min (Z.of_nat (length values))
                           (steps_to_boundary m d + 1 - offset)))
            (write_cell cast values (fun i => y m + (offset + i) * dy d)
               (fun i => x m + (offset + i) * dx d))
            (df m);
    Ok (mkAoCMap df' (x m) (y m) (heading m)).
Proof.
  intros Ho. unfold update.
  replace (offset <? 0) with false by (symmetry; apply Z.ltb_ge; lia).
  cbn [default mbind result_bind].
  unfold steps_to_boundary, room_N, room_E, room_S, room_W.
  destruct d; cbn [dx dy]; apply update_branch; try (intros i; lia); lia.
Qed.

Lemma update_negative_offset m (values : list V) offset d :
  offset < 0 ->
  update cast m values offset (Some d)
  = update cast m values (- offset) (Some (Direction.reverse d)).
Proof.
  intros Ho. unfold update.
  replace (offset <? 0) with true by (symmetry; apply Z.ltb_lt; lia).
  replace (- offset <? 0) with false by (symmetry; apply Z.ltb_ge; lia).
  cbn [default]. rewrite of_value_reverse. cbn [mbind result_bind].
  replace (Z.abs offset) with (- offset) by lia. reflexivity.
Qed.

(** Writing no values is the identity, whatever the offset and direction. *)
Lemma update_nil m offset direction : update cast m [] offset direction = Ok m.
Proof.
  rewrite update_default_direction.
  set (d := default (heading m) direction).
  assert (Hfwd : forall o e, 0 <= o -> update cast m [] o (Some e) = Ok m).
  { intros o e Ho. rewrite update_forward by exact Ho.
    rewrite py_range_nil by (simpl; lia). simpl. destruct m; reflexivity. }
  destruct (Z_lt_ge_dec offset 0) as [Hneg|Hpos].
  - rewrite update_negative_offset by exact Hneg. apply Hfwd. lia.
  - apply Hfwd. lia.
Qed.

Lemma update_forward_spec m (values : list V) offset d :
  rectangular (df m) = true -> enclosed m -> 0 <= offset ->
  let k := Z.min (Z.of_nat (length values)) (cells_from m d offset) in
  exists m',
    update cast m values offset (Some d) = Ok m' /\
    position m' = position m /\ heading m' = heading m /\
    shape m' = shape m /\ rectangular (df m') = true /\
    (forall (i : nat) v, Z.of_nat i < k -> values !! i = Some v ->
       getitem m' (ahead m d (offset + Z.of_nat i))
       = Ok (cast (fst (ahead m d (offset + Z.of_nat i))) v)) /\
    (forall cx cy,
       (forall i, 0 <= i < k -> (cx, cy) <> ahead m d (offset + i)) ->
       getitem m' (cx, cy) = getitem m (cx, cy)).
Proof.
  intros Hr He Ho k.
  pose proof (steps_to_boundary_nonneg m d He) as Hnn.
  rewrite (update_forward m values offset d Ho).
  set (K := Z.min (Z.of_nat (length values))
              (steps_to_boundary m d + 1 - offset)).
  assert (Hk : Z.of_nat (Z.to_nat K) = k).
  { unfold k, K, cells_from. lia. }
  rewrite (py_range_to_nat K).
  assert (Hin : forall i, 0 <= i < Z.of_nat (Z.to_nat K) ->
            encloses m (x m + (offset + i) * dx d)
              (y m + (offset + i) * dy d) = true).
  { intros i Hi. apply (ahead_enclosed m d (offset + i) He); unfold K in *; lia. }
  destruct (write_line_nat cast values (df m)
              (fun i => y m + (offset + i) * dy d)
              (fun i => x m + (offset + i) * dx d) (Z.to_nat K) Hr)
    as (d' & Hd' & Hr' & Hw' & Hh' & Hset & Hother).
  { unfold K. lia. }
  { intros i Hi. apply Hin, encloses_bounds in Hi. exact Hi. }
  { intros i j Hij Hj. destruct d; simpl; lia. }
  rewrite Hd'. cbn [mbind result_bind].
  exists (mkAoCMap d' (x m) (y m) (heading m)).
  split; [reflexivity|]. split; [reflexivity|]. split; [reflexivity|].
  split; [unfold shape, x_max, y_max, df_shape; simpl; congruence|].
  split; [exact Hr'|]. split.
  - intros i v Hi Hv. unfold ahead.
    rewrite getitem_enclosed.
    + apply Hset; [lia | exact Hv].
    + rewrite (encloses_same_shape m (mkAoCMap d' (x m) (y m) (heading m))
                 _ _ Hw' Hh').
      apply Hin. lia.
  - intros cx cy Hfree.
    apply (getitem_same_shape m (mkAoCMap d' (x m) (y m) (heading m))
             cx cy Hw' Hh').
    intros Hy0 Hx0. apply Hother; [exact Hy0 | exact Hx0 |].
    intros i Hi [-> ->]. apply (Hfree i); [lia | reflexivity].
Qed.

(** C2 (with the conversion Polars applies on writing): from an enclosed
    cursor on a rectangular grid, [update] never raises.  With an offset
    [o >= 0] it writes [values[i]] into the cell [o + i] steps from the
    cursor in the direction (the heading when omitted) for exactly the
    indices [i] below min(len(values), cells on the grid from distance [o]
    on), in order, the rest of [values] being dropped; what the cell then
    holds is [values[i]] cast to the dtype of its column, that is
    [values[i]] itself whenever the column can hold it.  Every other cell,
    the cursor, the heading and the shape are as before.  A negative
    offset is the same call with the reversed direction and [|o|]; and an
    empty list of values gives the navigator back unchanged. *)
Theorem update_writes_clipped_prefix m (values : list V) offset direction :
  rectangular (df m) = true -> enclosed m ->
  let d := default (heading m) direction in
  (0 <= offset ->
   let k := Z.min (Z.of_nat (length values)) (cells_from m d offset) in
   exists m',
     update cast m values offset direction = Ok m' /\
     position m' = position m /\ heading m' = heading m /\
     shape m' = shape m /\
     (forall (i : nat) v, Z.of_nat i < k -> values !! i = Some v ->
        getitem m' (ahead m d (offset + Z.of_nat i))
        = Ok (cast (fst (ahead m d (offset + Z.of_nat i))) v)) /\
     (forall (i : nat) v, Z.of_nat i < k -> values !! i = Some v ->
        cast (fst (ahead m d (offset + Z.of_nat i))) v = v ->
        getitem m' (ahead m d (offset + Z.of_nat i)) = Ok v) /\
     (forall cx cy,
        (forall i, 0 <= i < k -> (cx, cy) <> ahead m d (offset + i)) ->
        getitem m' (cx, cy) = getitem m (cx, cy))) /\
  (offset < 0 ->
   update cast m values offset direction
   = update cast m values (- offset) (Some (Direction.reverse d))) /\
  update cast m [] offset direction = Ok m.
Proof.
  intros Hr He d. split; [|split].
  - intros Ho k.
    destruct (update_forward_spec m values offset d Hr He Ho)
      as (m' & Hu & Hp & Hh & Hs & _ & Hset & Hother).
    exists m'. rewrite update_default_direction. fold d.
    split; [exact Hu|]. split; [exact Hp|]. split; [exact Hh|].
    split; [exact Hs|]. split; [exact Hset|]. split; [|exact Hother].
    intros i v Hi Hv Hc. rewrite (Hset i v Hi Hv), Hc. reflexivity.
  - intros Ho. rewrite update_default_direction. fold d.
    apply update_negative_offset, Ho.
  - apply update_nil.
Qed.

End NavigatorFacts.

Section NavigatorWalkFacts.

Context {V : Type}.
Implicit Types m : AoCMap V.

(** *** walk *)

Variable py_len_value : V -> option nat.

Lemma walk_default_direction m steps direction :
  walk py_len_value m steps direction
  = walk py_len_value m steps (Some (default (heading m) direction)).
Proof. destruct direction; reflexivity. Qed.

(** The eight branches of [walk] move the cursor [path_length] unit steps. *)
Lemma walk_branches m steps d :
  walk py_len_value m steps (Some d) =
    seen ← look m (Some steps) (Some d);
    n ← py_len py_len_value seen;
    Ok (mkAoCMap (df m) (x m + Z.min steps n * dx d)
          (y m + Z.min steps n * dy d) (heading m)).
Proof.
  unfold walk. change (default (heading m) (Some d)) with d. cbv zeta.
  destruct (look m (Some steps) (Some d)) as [seen|e]; [|reflexivity].
  cbn [mbind result_bind].
  destruct (py_len py_len_value seen) as [n|e]; [|reflexivity].
  cbn [mbind result_bind].
  destruct d; cbn [dx dy]; do 2 f_equal; lia.
Qed.

(** A walk of [s >= 1] steps moves by the length of what [look] sees and
    stays on the grid. *)
Lemma walk_forward_spec m s d :
  rectangular (df m) = true -> enclosed m -> 1 <= s ->
  exists vs,
    look m (Some s) (Some d) = Ok (Cells vs) /\
    Z.of_nat (length vs) = Z.min s (steps_to_boundary m d) /\
    walk py_len_value m s (Some d)
    = Ok (mkAoCMap (df m) (x m + Z.of_nat (length vs) * dx d)
            (y m + Z.of_nat (length vs) * dy d) (heading m)) /\
    enclosed (mkAoCMap (df m) (x m + Z.of_nat (length vs) * dx d)
                (y m + Z.of_nat (length vs) * dy d) (heading m)).
Proof.
  intros Hr He Hs.
  destruct (look_forward_spec m (Some s) d Hr He Hs) as (vs & Hl & Hlen & _).
  simpl in Hlen. exists vs. split; [exact Hl|]. split; [exact Hlen|].
  pose proof (steps_to_boundary_nonneg m d He) as Hnn. split.
  - rewrite walk_branches, Hl. cbn [mbind result_bind py_len].
    replace (Z.min s (Z.of_nat (length vs))) with (Z.of_nat (length vs))
      by lia.
    reflexivity.
  - pose proof (proj2 (ahead_enclosed m d (Z.of_nat (length vs)) He
                         ltac:(lia)) ltac:(lia)) as Hin.
    exact Hin.
Qed.

(** C3 (for [s >= 1]): from an enclosed cursor on a rectangular grid,
    [walk(s, d)] succeeds and moves the cursor
    min(s, len(look(s, d))) = len(look(s, d)) unit steps along the direction
    (the heading when omitted): each axis the direction involves changes by
    that amount, a diagonal changes both by the same amount, and the
    heading and the grid are as before. *)
Theorem walk_moves_by_look_length m s direction :
  rectangular (df m) = true -> enclosed m -> 1 <= s ->
  let d := default (heading m) direction in
  exists vs m',
    look m (Some s) direction = Ok (Cells vs) /\
    walk py_len_value m s direction = Ok m' /\
    let n := Z.of_nat (length vs) in
    Z.min s n = n /\
    x m' = x m + n * dx d /\ y m' = y m + n * dy d /\
    (dx d <> 0 -> Z.abs (x m' - x m) = n) /\
    (dy d <> 0 -> Z.abs (y m' - y m) = n) /\
    heading m' = heading m /\ df m' = df m.
Proof.
  intros Hr He Hs d.
  destruct (walk_forward_spec m s d Hr He Hs) as (vs & Hl & Hlen & Hw & _).
  eexists vs, _. rewrite look_default_direction, walk_default_direction.
  fold d. split; [exact Hl|]. split; [exact Hw|]. cbn [x y heading df].
  pose proof (steps_to_boundary_nonneg m d He).
  repeat split; try lia; intros Hd; destruct d; simpl in *; lia.
Qed.

(** Walking forward keeps the cursor on the grid. *)
Lemma walk_forward_stays_enclosed m s direction :
  rectangular (df m) = true -> enclosed m -> 1 <= s ->
  exists m', walk py_len_value m s direction = Ok m' /\ enclosed m'.
Proof.
  intros Hr He Hs. rewrite walk_default_direction.
  destruct (walk_forward_spec m s (default (heading m) direction) Hr He Hs)
    as (vs & _ & _ & Hw & Hin).
  eauto.
Qed.

(** C9 (as the code behaves): [look(0, d)] returns the bare value [v] of the
    cell under the cursor, not a list, and [walk(0, d)] takes [len(v)]: it
    raises TypeError when that value has no length (an integer, say) and is
    a no-op when it has one (a string, as in a parsed character grid),
    since min(0, len(v)) = 0. *)
Theorem walk_zero_steps m direction :
  rectangular (df m) = true -> enclosed m ->
  exists v,
    getitem m (position m) = Ok v /\
    look m (Some 0) direction = Ok (Cell v) /\
    (py_len_value v = None ->
     walk py_len_value m 0 direction = Raise TypeError) /\
    (forall n, py_len_value v = Some n ->
     walk py_len_value m 0 direction = Ok m).
Proof.
  intros Hr He.
  pose proof (proj1 (enclosed_bounds m) He) as [Hx Hy].
  destruct (df_getitem_inside (df m) (y m) (x m) Hr Hx Hy) as [v Hv].
  assert (Hl : forall dir, look m (Some 0) dir = Ok (Cell v)).
  { intros dir. unfold look. rewrite bool_decide_eq_true_2 by reflexivity.
    rewrite Hv. reflexivity. }
  exists v. split; [|split; [apply Hl|split]].
  - unfold position. rewrite getitem_enclosed by exact He. exact Hv.
  - intros Hn. rewrite walk_default_direction, walk_branches, Hl.
    cbn [mbind result_bind py_len]. rewrite Hn. reflexivity.
  - intros n Hn. rewrite walk_default_direction, walk_branches, Hl.
    cbn [mbind result_bind py_len]. rewrite Hn. cbn [mbind result_bind].
    replace (Z.min 0 (Z.of_nat n)) with 0 by lia.
    destruct m as [d0 cx cy h]. simpl. do 2 f_equal; lia.
Qed.

(** *** The bounds-checked read and the position setter *)

(** C8 (without a bounds-checked write, which the class does not have): on
    a rectangular grid of shape (W, H), [m[x, y]] returns the value of the
    cell when 0 <= x < W and 0 <= y < H and raises OutOfBounds for every
    other coordinate, negative ones included; the position setter moves the
    cursor to an enclosed target and raises OutOfBounds for any other,
    leaving the navigator, hence its position, as it was. *)
Theorem getitem_and_position_bounds m cx cy :
  rectangular (df m) = true ->
  shape m = (df_width (df m), df_height (df m)) /\
  (0 <= cx < x_max m /\ 0 <= cy < y_max m ->
   (exists v, getitem m (cx, cy) = Ok v /\ df_getitem (df m) cy cx = Ok v) /\
   set_position m (cx, cy) = Ok (mkAoCMap (df m) cx cy (heading m))) /\
  (~ (0 <= cx < x_max m /\ 0 <= cy < y_max m) ->
   getitem m (cx, cy) = Raise OutOfBounds /\
   set_position m (cx, cy) = Raise OutOfBounds /\
   after m (set_position m (cx, cy)) = m).
Proof.
  intros Hr. split; [reflexivity|]. split.
  - intros Hin. pose proof (proj2 (encloses_bounds m cx cy) Hin) as He.
    split.
    + destruct (df_getitem_inside (df m) cy cx Hr) as [v Hv];
        [apply Hin | apply Hin |].
      exists v. rewrite getitem_enclosed by exact He. split; exact Hv.
    + unfold set_position. rewrite He. reflexivity.
  - intros Hout.
    assert (He : encloses m cx cy = false).
    { destruct (encloses m cx cy) eqn:E; [|reflexivity].
      apply encloses_bounds in E. tauto. }
    assert (Hs : set_position m (cx, cy) = Raise OutOfBounds).
    { unfold set_position. rewrite He. reflexivity. }
    split; [|split; [exact Hs | rewrite Hs; reflexivity]].
    unfold getitem. unfold encloses in He.
    apply andb_false_iff in He as [-> | ->]; simpl;
      [reflexivity | rewrite orb_true_r; reflexivity].
Qed.

End NavigatorWalkFacts.

(** ** The statements at work on concrete grids *)

Lemma look_returns_cells_ahead_witness :
  exists vs,
    look demo_map (Some 2) (Some Direction.E) = Ok (Cells vs) /\
    Z.of_nat (length vs) = 2 /\
    (forall (j : nat) v, vs !! j = Some v ->
       getitem demo_map (ahead demo_map Direction.E (Z.of_nat j + 1)) = Ok v) /\
    (steps_to_boundary demo_map Direction.E = 0 -> vs = []).
Proof.
  apply (look_returns_cells_ahead demo_map (Some 2) (Some Direction.E));
    [reflexivity | reflexivity | simpl; lia].
Defined.

Lemma look_negative_is_reverse_witness :
  look demo_map (Some (- 2)) (Some Direction.W)
  = look demo_map (Some 2) (Some (Direction.reverse Direction.W))
  /\ Direction.value (Direction.reverse Direction.W)
     = (Direction.value Direction.W + 4) mod 8.
Proof. apply (look_negative_is_reverse demo_map 2 Direction.W). lia. Defined.

Lemma update_writes_clipped_prefix_witness :
  (0 <= 7 ->
   exists m',
     update int64_cast demo_corner [PyInt 90; PyInt 91; PyInt 92; PyInt 93] 7
       (Some Direction.N) = Ok m' /\
     position m' = position demo_corner /\
     heading m' = heading demo_corner /\
     shape m' = shape demo_corner /\
     (forall (i : nat) v, Z.of_nat i < 3 ->
        [PyInt 90; PyInt 91; PyInt 92; PyInt 93] !! i = Some v ->
        getitem m' (ahead demo_corner Direction.N (7 + Z.of_nat i))
        = Ok (int64_cast
                (fst (ahead demo_corner Direction.N (7 + Z.of_nat i))) v)) /\
     (forall (i : nat) v, Z.of_nat i < 3 ->
        [PyInt 90; PyInt 91; PyInt 92; PyInt 93] !! i = Some v ->
        int64_cast (fst (ahead demo_corner Direction.N (7 + Z.of_nat i))) v
        = v ->
        getitem m' (ahead demo_corner Direction.N (7 + Z.of_nat i)) = Ok v) /\
     (forall cx cy,
        (forall i, 0 <= i < 3 ->
           (cx, cy) <> ahead demo_corner Direction.N (7 + i)) ->
        getitem m' (cx, cy) = getitem demo_corner (cx, cy))) /\
  (7 < 0 ->
   update int64_cast demo_corner [PyInt 90; PyInt 91; PyInt 92; PyInt 93] 7
     (Some Direction.N)
   = update int64_cast demo_corner [PyInt 90; PyInt 91; PyInt 92; PyInt 93]
       (- 7) (Some (Direction.reverse Direction.N))) /\
  update int64_cast demo_corner [] 7 (Some Direction.N) = Ok demo_corner.
Proof.
  apply (update_writes_clipped_prefix int64_cast demo_corner
           [PyInt 90; PyInt 91; PyInt 92; PyInt 93] 7 (Some Direction.N));
    reflexivity.
Defined.

Lemma walk_moves_by_look_length_witness :
  exists vs m',
    look demo_map (Some 2) (Some Direction.SE) = Ok (Cells vs) /\
    walk pyval_len demo_map 2 (Some Direction.SE) = Ok m' /\
    Z.min 2 (Z.of_nat (length vs)) = Z.of_nat (length vs) /\
    x m' = x demo_map + Z.of_nat (length vs) * dx Direction.SE /\
    y m' = y demo_map + Z.of_nat (length vs) * dy Direction.SE /\
    (dx Direction.SE <> 0 -> Z.abs (x m' - x demo_map) = Z.of_nat (length vs)) /\
    (dy Direction.SE <> 0 -> Z.abs (y m' - y demo_map) = Z.of_nat (length vs)) /\
    heading m' = heading demo_map /\ df m' = df demo_map.
Proof.
  apply (walk_moves_by_look_length pyval_len demo_map 2 (Some Direction.SE));
    [reflexivity | reflexivity | lia].
Defined.

Lemma walk_zero_steps_witness :
  exists v,
    getitem char_map (position char_map) = Ok v /\
    look char_map (Some 0) (Some Direction.E) = Ok (Cell v) /\
    (pyval_len v = None ->
     walk pyval_len char_map 0 (Some Direction.E) = Raise TypeError) /\
    (forall n, pyval_len v = Some n ->
     walk pyval_len char_map 0 (Some Direction.E) = Ok char_map).
Proof.
  apply (walk_zero_steps pyval_len char_map (Some Direction.E)); reflexivity.
Defined.

Lemma getitem_and_position_bounds_witness :
  shape demo_map = (df_width (df demo_map), df_height (df demo_map)) /\
  (0 <= 8 < x_max demo_map /\ 0 <= -1 < y_max demo_map ->
   (exists v, getitem demo_map (8, -1) = Ok v /\
              df_getitem (df demo_map) (-1) 8 = Ok v) /\
   set_position demo_map (8, -1)
   = Ok (mkAoCMap (df demo_map) 8 (-1) (heading demo_map))) /\
  (~ (0 <= 8 < x_max demo_map /\ 0 <= -1 < y_max demo_map) ->
   getitem demo_map (8, -1) = Raise OutOfBounds /\
   set_position demo_map (8, -1) = Raise OutOfBounds /\
   after demo_map (set_position demo_map (8, -1)) = demo_map).
Proof.
  apply (getitem_and_position_bounds demo_map 8 (-1)). reflexivity.
Defined.

(** ** Where the code departs from the statements *)

(** C2, for a value the column cannot hold: the cell does not receive
    [values[i]].  The columns of the demonstration frame are Int64; a text
    and the integer 2^63 written one and two steps north of the corner
    [(0, 9)] are both stored as null, while an integer within 64 bits is
    stored as it is. *)
Lemma update_stores_null_counterexample :
  rectangular (df demo_corner) = true /\ enclosed demo_corner /\
  exists m',
    update int64_cast demo_corner [PyStr "x"; PyInt (2 ^ 63); PyInt 5] 1
      (Some Direction.N) = Ok m' /\
    ahead demo_corner Direction.N 1 = (0, 8) /\
    getitem m' (0, 8) = Ok PyNone /\
    getitem m' (0, 8) <> Ok (PyStr "x") /\
    getitem m' (0, 7) = Ok PyNone /\
    getitem m' (0, 7) <> Ok (PyInt (2 ^ 63)) /\
    getitem m' (0, 6) = Ok (PyInt 5).
Proof.
  split; [reflexivity|]. split; [reflexivity|].
  eexists. split; [vm_compute; reflexivity|].
  repeat split; try discriminate; vm_compute; reflexivity.
Qed.

(** C3, at [s = 0]: [look(0, d)] is not a list but the bare cell, and
    [walk(0, d)] does not move by its length.  On the integer grid the call
    raises TypeError; on the character grid it returns with the cursor
    where it was although the cell seen has length one. *)
Lemma walk_by_zero_counterexample :
  (look demo_map (Some 0) (Some Direction.E) = Ok (Cell (PyInt 0)) /\
   walk pyval_len demo_map 0 (Some Direction.E) = Raise TypeError) /\
  (look char_map (Some 0) (Some Direction.E) = Ok (Cell (PyStr "a")) /\
   py_len pyval_len (Cell (PyStr "a")) = Ok 1 /\
   walk pyval_len char_map 0 (Some Direction.E) = Ok char_map).
Proof. repeat split; vm_compute; reflexivity. Qed.

(** C4: a negative step count walks off the grid.  From [(0, 0)] on the
    8 by 10 grid, [walk(-12, N)] looks twelve steps to the south, sees nine
    cells, takes min(-12, 9) = -12 as the path length and subtracts it from
    [y]: the cursor ends at [(0, 12)], which the grid does not enclose. *)
Theorem walk_negative_steps_leaves_grid :
  enclosed demo_map /\
  shape demo_map = (8, 10) /\
  walk pyval_len demo_map (-12) (Some Direction.N)
  = Ok (mkAoCMap demo_df 0 12 Direction.N) /\
  encloses demo_map 0 12 = false.
Proof. repeat split; vm_compute; reflexivity. Qed.

(** C8, for writes: the navigator has no bounds-checked item assignment.
    [m[8, 0] = v] on the 8 by 10 grid does not raise OutOfBounds. *)
Lemma setitem_counterexample :
  encloses demo_map 8 0 = false /\
  setitem demo_map (8, 0) (PyInt 1) <> Raise OutOfBounds.
Proof. split; [reflexivity | discriminate]. Qed.

(** C9, on a character grid: [walk(0, d)] does not fail, it returns with
    the navigator unchanged. *)
Lemma walk_zero_on_strings_counterexample :
  rectangular (df char_map) = true /\ enclosed char_map /\
  walk pyval_len char_map 0 (Some Direction.E) = Ok char_map /\
  walk pyval_len char_map 0 None = Ok char_map.
Proof. repeat split. Qed.

(** ** The module's demonstration run *)

Example demo_look_east :
  look demo_map None (Some Direction.E)
  = Ok (Cells (map PyInt [10; 20; 30; 40; 50; 60; 70])).
Proof. reflexivity. Qed.

Example demo_walk_east :
  (m ← walk pyval_len demo_map 2 (Some Direction.E);
   v ← look m (Some 0) None; Ok (position m, v))
  = Ok ((2, 0), Cell (PyInt 20)).
Proof. reflexivity. Qed.

Example demo_update_north :
  (m ← update int64_cast demo_corner (map PyInt (py_range 90 100)) 0 (Some Direction.N);
   getitem m (0, 0))
  = Ok (PyInt 99).
Proof. vm_compute; reflexivity. Qed.

Example demo_update_north_offset :
  (m ← update int64_cast demo_corner (map PyInt (py_range 90 100)) 3 (Some Direction.N);
   a ← getitem m (0, 6); b ← getitem m (0, 0); c ← getitem m (0, 7);
   Ok (a, b, c))
  = Ok (PyInt 90, PyInt 96, PyInt 7).
Proof. vm_compute; reflexivity. Qed.

(** * Further properties of the navigator *)

Section LookFacts.

Context {V : Type}.
Implicit Types m : AoCMap V.

Lemma dx_reverse d : dx (Direction.reverse d) = - dx d.
Proof. destruct d; reflexivity. Qed.

Lemma dy_reverse d : dy (Direction.reverse d) = - dy d.
Proof. destruct d; reflexivity. Qed.

Lemma ahead_reverse m d k : ahead m (Direction.reverse d) k = ahead m d (- k).
Proof. unfold ahead. rewrite dx_reverse, dy_reverse. f_equal; lia. Qed.

Lemma reverse_involutive d : Direction.reverse (Direction.reverse d) = d.
Proof. destruct d; reflexivity. Qed.

(** A negative step count turns [look] around. *)
Lemma look_negative_steps m s d :
  s < 0 ->
  look m (Some s) (Some d) = look m (Some (- s)) (Some (Direction.reverse d)).
Proof.
  intros Hs. unfold look.
  rewrite !bool_decide_eq_false_2 by (intros [= H]; lia).
  replace (s <? 0) with true by (symmetry; apply Z.ltb_lt; lia).
  replace (- s <? 0) with false by (symmetry; apply Z.ltb_ge; lia).
  cbn [default]. rewrite of_value_reverse. cbn [mbind result_bind].
  replace (Z.abs s) with (- s) by lia. reflexivity.
Qed.

(** Two lists that read the same cells are the same list. *)
Lemma cells_determined m m' (f : nat -> Z * Z) (l1 l2 : list V) :
  length l1 = length l2 ->
  (forall (j : nat) v, l1 !! j = Some v -> getitem m (f j) = Ok v) ->
  (forall (j : nat) v, l2 !! j = Some v -> getitem m' (f j) = Ok v) ->
  (forall j : nat, (j < length l1)%nat -> getitem m' (f j) = getitem m (f j)) ->
  l1 = l2.
Proof.
  intros Hlen H1 H2 Hsame.
  apply (list_eq_same_length l1 l2 (length l1)); [lia | reflexivity |].
  intros j v w Hj Hv Hw.
  apply H1 in Hv. apply H2 in Hw. rewrite Hsame in Hw by exact Hj.
  congruence.
Qed.

Lemma getitem_same_df m m' p : df m' = df m -> getitem m' p = getitem m p.
Proof.
  intros H. destruct p as [cx cy].
  unfold getitem, x_max, y_max. rewrite H. reflexivity.
Qed.

(** X1: from an enclosed cursor on a rectangular grid [look] never raises,
    whatever the step count and direction: zero steps give the bare cell
    under the cursor, a positive count or none a list of
    min(steps, steps to the boundary) cells, and a negative count a list of
    min(|steps|, steps to the boundary in the opposite direction) cells. *)
Theorem look_never_raises m steps direction :
  rectangular (df m) = true -> enclosed m ->
  let d := default (heading m) direction in
  match steps with
  | Some 0 =>
      exists v, look m steps direction = Ok (Cell v) /\
                getitem m (position m) = Ok v
  | Some s =>
      exists vs, look m steps direction = Ok (Cells vs) /\
        Z.of_nat (length vs) =
          Z.min (Z.abs s)
            (steps_to_boundary m (if s <? 0 then Direction.reverse d else d))
  | None =>
      exists vs, look m steps direction = Ok (Cells vs) /\
        Z.of_nat (length vs) = steps_to_boundary m d
  end.
Proof.
  intros Hr He d. rewrite look_default_direction. fold d.
  assert (Hpos : forall s, 1 <= s -> forall e,
            exists vs, look m (Some s) (Some e) = Ok (Cells vs) /\
              Z.of_nat (length vs) = Z.min s (steps_to_boundary m e)).
  { intros s Hs e.
    destruct (look_forward_spec m (Some s) e Hr He Hs) as (vs & Hl & Hn & _).
    eauto. }
  destruct steps as [s|].
  - destruct (Z.compare_spec s 0) as [-> | Hneg | Hpos'].
    + pose proof (proj1 (enclosed_bounds m) He) as [Hx Hy].
      destruct (df_getitem_inside (df m) (y m) (x m) Hr Hx Hy) as [v Hv].
      exists v. split.
      * unfold look. rewrite bool_decide_eq_true_2 by reflexivity.
        rewrite Hv. reflexivity.
      * unfold position. rewrite getitem_enclosed by exact He. exact Hv.
    + assert (Hgoal : exists vs, look m (Some s) (Some d) = Ok (Cells vs) /\
                Z.of_nat (length vs) =
                  Z.min (Z.abs s)
                    (steps_to_boundary m
                       (if s <? 0 then Direction.reverse d else d))).
      { rewrite look_negative_steps by exact Hneg.
        replace (s <? 0) with true by (symmetry; apply Z.ltb_lt; lia).
        replace (Z.abs s) with (- s) by lia. apply Hpos. lia. }
      destruct s; try lia; exact Hgoal.
    + assert (Hgoal : exists vs, look m (Some s) (Some d) = Ok (Cells vs) /\
                Z.of_nat (length vs) =
                  Z.min (Z.abs s)
                    (steps_to_boundary m
                       (if s <? 0 then Direction.reverse d else d))).
      { replace (s <? 0) with false by (symmetry; apply Z.ltb_ge; lia).
        replace (Z.abs s) with s by lia. apply Hpos. lia. }
      destruct s; try lia; exact Hgoal.
  - destruct (look_forward_spec m None d Hr He I) as (vs & Hl & Hn & _).
    eauto.
Qed.

(** X2: with a negative step count [look] lists the cells behind the
    cursor, nearest first: entry [j] of [look(-s, d)] is the cell [j + 1]
    steps against direction [d]. *)
Theorem look_negative_reads_behind m s direction :
  rectangular (df m) = true -> enclosed m -> 1 <= s ->
  let d := default (heading m) direction in
  exists vs,
    look m (Some (- s)) direction = Ok (Cells vs) /\
    Z.of_nat (length vs)
      = Z.min s (steps_to_boundary m (Direction.reverse d)) /\
    forall (j : nat) v, vs !! j = Some v ->
      getitem m (ahead m d (- (Z.of_nat j + 1))) = Ok v.
Proof.
  intros Hr He Hs d. rewrite look_default_direction. fold d.
  rewrite look_negative_steps by lia.
  replace (- - s) with s by lia.
  destruct (look_forward_spec m (Some s) (Direction.reverse d) Hr He Hs)
    as (vs & Hl & Hn & Hget).
  exists vs. split; [exact Hl|]. split; [exact Hn|].
  intros j v Hj. rewrite <- ahead_reverse. apply Hget, Hj.
Qed.

(** X3: a bounded [look] is a prefix of the unbounded one: [look(s, d)]
    is the first [s] entries of [look(None, d)]. *)
Theorem look_is_prefix_of_full_scan m s direction :
  rectangular (df m) = true -> enclosed m -> 1 <= s ->
  exists full,
    look m None direction = Ok (Cells full) /\
    look m (Some s) direction = Ok (Cells (take (Z.to_nat s) full)).
Proof.
  intros Hr He Hs. rewrite !(look_default_direction m _ direction).
  set (d := default (heading m) direction).
  destruct (look_forward_spec m None d Hr He I) as (full & Hf & Hnf & Hgf).
  destruct (look_forward_spec m (Some s) d Hr He Hs) as (vs & Hl & Hn & Hg).
  simpl in Hnf, Hn.
  exists full. split; [exact Hf|]. rewrite Hl. do 2 f_equal.
  apply (cells_determined m m (fun j => ahead m d (Z.of_nat j + 1))).
  - rewrite length_take. lia.
  - exact Hg.
  - intros j v Hj. apply lookup_take_Some in Hj as [Hj _]. apply Hgf, Hj.
  - reflexivity.
Qed.

End LookFacts.

Section UpdateFacts.

Context {V : Type}.
Implicit Types m : AoCMap V.

Lemma enclosed_same_place m m' :
  position m' = position m -> shape m' = shape m -> enclosed m -> enclosed m'.
Proof.
  unfold position, shape, enclosed, encloses. intros [= -> ->] [= -> ->].
  trivial.
Qed.

Lemma steps_to_boundary_same_place m m' d :
  position m' = position m -> shape m' = shape m ->
  steps_to_boundary m' d = steps_to_boundary m d.
Proof.
  unfold position, shape. intros [= Hx Hy] [= Hw Hh].
  unfold steps_to_boundary, room_N, room_E, room_S, room_W.
  rewrite Hx, Hy, Hw, Hh. reflexivity.
Qed.

Lemma ahead_same_place m m' d k :
  position m' = position m -> ahead m' d k = ahead m d k.
Proof. unfold position, ahead. intros [= -> ->]. reflexivity. Qed.

Lemma ahead_inj m d a b : ahead m d a = ahead m d b -> a = b.
Proof. unfold ahead. intros [= Hx Hy]. destruct d; simpl in *; lia. Qed.

Variable cast : Z -> V -> V.

Lemma update_any_offset m (values : list V) offset direction :
  rectangular (df m) = true -> enclosed m ->
  exists m',
    update cast m values offset direction = Ok m' /\
    position m' = position m /\ heading m' = heading m /\
    shape m' = shape m /\ rectangular (df m') = true.
Proof.
  intros Hr He. rewrite update_default_direction.
  set (d := default (heading m) direction).
  destruct (Z_lt_ge_dec offset 0) as [Hneg|Hpos].
  - rewrite update_negative_offset by exact Hneg.
    destruct (update_forward_spec cast m values (- offset) (Direction.reverse d)
                Hr He ltac:(lia)) as (m' & Hu & Hp & Hh & Hs & Hr' & _).
    eauto 10.
  - destruct (update_forward_spec cast m values offset d Hr He ltac:(lia))
      as (m' & Hu & Hp & Hh & Hs & Hr' & _).
    eauto 10.
Qed.

(** X4: from an enclosed cursor on a rectangular grid [update] returns for
    every offset, negative ones included, and keeps what the next call
    relies on: the frame is still rectangular with the same shape, the
    cursor is where it was and still enclosed, the heading is unchanged. *)
Theorem update_keeps_navigator_valid m (values : list V) offset direction :
  rectangular (df m) = true -> enclosed m ->
  exists m',
    update cast m values offset direction = Ok m' /\
    rectangular (df m') = true /\ enclosed m' /\
    shape m' = shape m /\ position m' = position m /\
    heading m' = heading m.
Proof.
  intros Hr He.
  destruct (update_any_offset m values offset direction Hr He)
    as (m' & Hu & Hp & Hh & Hs & Hr').
  exists m'. repeat split; try assumption.
  apply (enclosed_same_place m m' Hp Hs He).
Qed.

(** X5: writing with offset 1 and scanning read each other back: after
    [update(values, 1, d)], the unbounded [look] in direction [d] returns
    the values that fitted, each as the column it was written to stores it
    (cast to the column's dtype), followed by the cells the write did not
    reach, still as they were.  When every value is one its column holds
    unchanged, the scan returns the written values themselves. *)
Theorem update_then_look m (values : list V) direction :
  rectangular (df m) = true -> enclosed m ->
  let d := default (heading m) direction in
  let stored := imap (fun i v => cast (fst (ahead m d (1 + Z.of_nat i))) v) in
  exists m' before,
    update cast m values 1 direction = Ok m' /\
    look m None direction = Ok (Cells before) /\
    look m' None direction
    = Ok (Cells (stored (take (length before) values)
                 ++ drop (length values) before)) /\
    ((forall (i : nat) v, values !! i = Some v ->
        cast (fst (ahead m d (1 + Z.of_nat i))) v = v) ->
     look m' None direction
     = Ok (Cells (take (length before) values ++ drop (length values) before))).
Proof.
  intros Hr He d stored.
  rewrite update_default_direction, (look_default_direction m). fold d.
  destruct (update_forward_spec cast m values 1 d Hr He ltac:(lia))
    as (m' & Hu & Hp & Hh & Hs & Hr' & Hset & Hother).
  pose proof (enclosed_same_place m m' Hp Hs He) as He'.
  destruct (look_forward_spec m None d Hr He I) as (before & Hb & Hnb & Hgb).
  destruct (look_forward_spec m' None d Hr' He' I) as (after & Ha & Hna & Hga).
  simpl in Hnb, Hna.
  rewrite (steps_to_boundary_same_place m m' d Hp Hs) in Hna.
  exists m', before. split; [exact Hu|]. split; [exact Hb|].
  rewrite look_default_direction, Hh. fold d. rewrite Ha.
  pose proof (steps_to_boundary_nonneg m d He) as Hnn.
  assert (Hk : Z.min (Z.of_nat (length values)) (cells_from m d 1)
               = Z.min (Z.of_nat (length values)) (Z.of_nat (length before))).
  { unfold cells_from. lia. }
  rewrite Hk in Hset, Hother.
  assert (Hscan : after = stored (take (length before) values)
                          ++ drop (length values) before).
  { apply (list_eq_same_length _ _ (length before)).
    - unfold stored.
      rewrite length_app, length_imap, length_take, length_drop. lia.
    - lia.
    - intros j a b Hj Hja Hjb.
      apply Hga in Hja. rewrite (ahead_same_place m m' d _ Hp) in Hja.
      destruct (decide (j < length values)%nat) as [Hlt|Hge].
      + rewrite lookup_app_l in Hjb
          by (unfold stored; rewrite length_imap, length_take; lia).
        unfold stored in Hjb. rewrite list_lookup_imap in Hjb.
        destruct (take (length before) values !! j) as [v|] eqn:Hv;
          [|discriminate].
        injection Hjb as <-.
        apply lookup_take_Some in Hv as [Hv _].
        pose proof (Hset j v ltac:(lia) Hv) as Hw.
        replace (1 + Z.of_nat j) with (Z.of_nat j + 1) in * by lia.
        rewrite Hw in Hja. injection Hja as <-. reflexivity.
      + rewrite lookup_app_r in Hjb
          by (unfold stored; rewrite length_imap, length_take; lia).
        unfold stored in Hjb. rewrite length_imap, length_take in Hjb.
        rewrite lookup_drop in Hjb.
        replace (length values + (j - min (length before) (length values)))%nat
          with j in Hjb by lia.
        apply Hgb in Hjb.
        destruct (ahead m d (Z.of_nat j + 1)) as [cx cy] eqn:Hcell.
        rewrite Hother in Hja; [congruence|].
        intros i Hi Heq. rewrite <- Hcell in Heq.
        apply ahead_inj in Heq. lia. }
  split; [rewrite Hscan; reflexivity|].
  intros Hkeep. rewrite Hscan. do 3 f_equal.
  apply list_eq. intros j. unfold stored. rewrite list_lookup_imap.
  destruct (take (length before) values !! j) as [v|] eqn:Hv; [|reflexivity].
  simpl. f_equal. apply Hkeep.
  apply lookup_take_Some in Hv as [Hv _]. exact Hv.
Qed.

End UpdateFacts.

Section WalkFacts.

Context {V : Type}.
Variable py_len_value : V -> option nat.
Implicit Types m : AoCMap V.

Lemma moved_zero m d : moved m d 0 = m.
Proof. destruct m. unfold moved. simpl. f_equal; lia. Qed.

Lemma moved_moved m d a b : moved (moved m d a) d b = moved m d (a + b).
Proof. unfold moved. simpl. f_equal; lia. Qed.

Lemma moved_reverse m d n : moved m (Direction.reverse d) n = moved m d (- n).
Proof. unfold moved. rewrite dx_reverse, dy_reverse. f_equal; lia. Qed.

Lemma enclosed_moved m d n :
  enclosed m -> 0 <= n -> (enclosed (moved m d n) <-> n <= steps_to_boundary m d).
Proof. intros He Hn. apply (ahead_enclosed m d n He Hn). Qed.

Lemma steps_to_boundary_moved m d n :
  steps_to_boundary (moved m d n) d = steps_to_boundary m d - n.
Proof.
  unfold steps_to_boundary, room_N, room_E, room_S, room_W, moved, x_max, y_max.
  destruct d; simpl; lia.
Qed.

Lemma steps_to_boundary_moved_back m d n :
  steps_to_boundary (moved m d n) (Direction.reverse d)
  = steps_to_boundary m (Direction.reverse d) + n.
Proof.
  unfold steps_to_boundary, room_N, room_E, room_S, room_W, moved, x_max, y_max.
  destruct d; simpl; lia.
Qed.

(** A forward walk is a move by min(steps, steps to the boundary). *)
Lemma walk_forward_moved m s d :
  rectangular (df m) = true -> enclosed m -> 1 <= s ->
  walk py_len_value m s (Some d)
  = Ok (moved m d (Z.min s (steps_to_boundary m d))).
Proof.
  intros Hr He Hs.
  destruct (walk_forward_spec py_len_value m s d Hr He Hs)
    as (vs & _ & Hn & Hw & _).
  rewrite Hw, Hn. reflexivity.
Qed.

Lemma at_edge_true m :
  at_edge m = true <->
  x m = 0 \/ x m = x_max m - 1 \/ y m = 0 \/ y m = y_max m - 1.
Proof.
  unfold at_edge. rewrite !orb_true_iff, !Z.eqb_eq. tauto.
Qed.

Lemma at_edge_no_room m :
  enclosed m ->
  (at_edge m = true <-> exists d, steps_to_boundary m d = 0).
Proof.
  intros He. pose proof (proj1 (enclosed_bounds m) He) as [Hx Hy].
  rewrite at_edge_true. split.
  - intros [H|[H|[H|H]]];
      [exists Direction.W | exists Direction.E
       | exists Direction.N | exists Direction.S];
      unfold steps_to_boundary, room_N, room_E, room_S, room_W; lia.
  - intros [d Hd]. revert Hd.
    unfold steps_to_boundary, room_N, room_E, room_S, room_W.
    destruct d; lia.
Qed.

(** X6: a forward walk ends on the last cell [look] saw: after
    [walk(s, d)] with [s >= 1] the cell under the cursor is the last entry
    of [look(s, d)], and when [look(s, d)] is empty the navigator has not
    changed at all. *)
Theorem walk_lands_on_last_seen m s direction :
  rectangular (df m) = true -> enclosed m -> 1 <= s ->
  exists vs m',
    look m (Some s) direction = Ok (Cells vs) /\
    walk py_len_value m s direction = Ok m' /\
    match last vs with
    | Some v =>
        getitem m' (position m') = Ok v /\
        look m' (Some 0) direction = Ok (Cell v)
    | None => m' = m
    end.
Proof.
  intros Hr He Hs.
  rewrite look_default_direction, walk_default_direction.
  set (d := default (heading m) direction).
  destruct (look_forward_spec m (Some s) d Hr He Hs) as (vs & Hl & Hn & Hg).
  simpl in Hn.
  pose proof (steps_to_boundary_nonneg m d He) as Hnn.
  exists vs, (moved m d (Z.of_nat (length vs))).
  split; [exact Hl|]. split.
  { rewrite (walk_forward_moved m s d Hr He Hs), Hn. reflexivity. }
  rewrite last_lookup.
  destruct (vs !! pred (length vs)) as [v|] eqn:Hv.
  - pose proof (lookup_lt_Some _ _ _ Hv) as Hlt.
    apply Hg in Hv.
    replace (Z.of_nat (pred (length vs)) + 1) with (Z.of_nat (length vs))
      in Hv by lia.
    assert (Hcell : getitem (moved m d (Z.of_nat (length vs)))
                      (position (moved m d (Z.of_nat (length vs)))) = Ok v).
    { rewrite (getitem_same_df m) by reflexivity. exact Hv. }
    split; [exact Hcell|].
    assert (He' : enclosed (moved m d (Z.of_nat (length vs)))).
    { apply enclosed_moved; [exact He | lia | lia]. }
    unfold position in Hcell. rewrite getitem_enclosed in Hcell by exact He'.
    unfold look. rewrite bool_decide_eq_true_2 by reflexivity.
    rewrite Hcell. reflexivity.
  - apply lookup_ge_None in Hv.
    assert (length vs = 0%nat) as -> by (destruct vs; simpl in *; lia).
    apply moved_zero.
Qed.

(** X7: walking back undoes a forward walk: if [walk(s, d)] moved the
    cursor [n >= 1] cells, then [walk(n, reverse d)] from there restores the
    navigator. *)
Theorem walk_there_and_back m s direction :
  rectangular (df m) = true -> enclosed m -> 1 <= s ->
  let d := default (heading m) direction in
  let n := Z.min s (steps_to_boundary m d) in
  exists m',
    walk py_len_value m s direction = Ok m' /\
    position m' = ahead m d n /\
    (n = 0 -> m' = m) /\
    (1 <= n ->
     walk py_len_value m' n (Some (Direction.reverse d)) = Ok m).
Proof.
  intros Hr He Hs d n. rewrite walk_default_direction. fold d.
  pose proof (steps_to_boundary_nonneg m d He) as Hnn.
  exists (moved m d n). split; [apply (walk_forward_moved m s d Hr He Hs)|].
  split; [reflexivity|]. split.
  - intros ->. apply moved_zero.
  - intros Hn.
    assert (He' : enclosed (moved m d n)).
    { apply enclosed_moved; [exact He | lia | unfold n; lia]. }
    rewrite (walk_forward_moved (moved m d n) n (Direction.reverse d) Hr He' Hn).
    rewrite steps_to_boundary_moved_back.
    pose proof (steps_to_boundary_nonneg m (Direction.reverse d) He).
    replace (Z.min n (steps_to_boundary m (Direction.reverse d) + n))
      with n by lia.
    rewrite moved_reverse, moved_moved.
    replace (n + - n) with 0 by lia. rewrite moved_zero. reflexivity.
Qed.

(** X8: forward walks in one direction add up: [walk(a, d)] followed by
    [walk(b, d)] is [walk(a + b, d)]. *)
Theorem walk_walk m a b direction :
  rectangular (df m) = true -> enclosed m -> 1 <= a -> 1 <= b ->
  (m' ← walk py_len_value m a direction; walk py_len_value m' b direction)
  = walk py_len_value m (a + b) direction.
Proof.
  intros Hr He Ha Hb.
  rewrite (walk_default_direction py_len_value m a direction).
  rewrite (walk_default_direction py_len_value m (a + b) direction).
  set (d := default (heading m) direction).
  pose proof (steps_to_boundary_nonneg m d He) as Hnn.
  rewrite (walk_forward_moved m a d Hr He Ha).
  rewrite (walk_forward_moved m (a + b) d Hr He ltac:(lia)).
  cbn [mbind result_bind].
  rewrite (walk_default_direction py_len_value _ b direction).
  change (default (heading (moved m d (Z.min a (steps_to_boundary m d))))
            direction) with d.
  assert (He' : enclosed (moved m d (Z.min a (steps_to_boundary m d)))).
  { apply enclosed_moved; [exact He | lia | lia]. }
  rewrite (walk_forward_moved (moved m d (Z.min a (steps_to_boundary m d)))
             b d Hr He' Hb).
  rewrite steps_to_boundary_moved, moved_moved.
  do 2 f_equal. lia.
Qed.

(** X9: a negative step count is not clipped.  [walk(-s, d)] with [s >= 1]
    always moves the cursor exactly [s] cells against direction [d]; the
    cursor is still on the grid afterwards iff at least [s] cells lay
    behind it. *)
Theorem walk_negative_is_unclipped m s direction :
  rectangular (df m) = true -> enclosed m -> 1 <= s ->
  let d := default (heading m) direction in
  walk py_len_value m (- s) direction = Ok (moved m d (- s)) /\
  (enclosed (moved m d (- s))
   <-> s <= steps_to_boundary m (Direction.reverse d)).
Proof.
  intros Hr He Hs d. rewrite walk_default_direction. fold d. split.
  - rewrite walk_branches, look_negative_steps by lia.
    replace (- - s) with s by lia.
    destruct (look_forward_spec m (Some s) (Direction.reverse d) Hr He Hs)
      as (vs & Hl & _ & _).
    rewrite Hl. cbn [mbind result_bind py_len].
    replace (Z.min (- s) (Z.of_nat (length vs))) with (- s) by lia.
    reflexivity.
  - rewrite <- moved_reverse. apply enclosed_moved; [exact He | lia].
Qed.

(** X10: a forward walk keeps the cursor on the grid and stops at the
    boundary: after [walk(s, d)] with [s >= 1] the cursor is enclosed, and
    when [s] is at least the distance to the boundary the cursor is at the
    edge and a further [look] in that direction sees nothing. *)
Theorem walk_forward_stops_at_edge m s direction :
  rectangular (df m) = true -> enclosed m -> 1 <= s ->
  exists m',
    walk py_len_value m s direction = Ok m' /\
    enclosed m' /\ shape m' = shape m /\
    (steps_to_boundary m (default (heading m) direction) <= s ->
     at_edge m' = true /\ look m' None direction = Ok (Cells [])).
Proof.
  intros Hr He Hs. rewrite walk_default_direction.
  set (d := default (heading m) direction).
  pose proof (steps_to_boundary_nonneg m d He) as Hnn.
  set (n := Z.min s (steps_to_boundary m d)).
  assert (He' : enclosed (moved m d n)).
  { apply enclosed_moved; [exact He | unfold n; lia | unfold n; lia]. }
  exists (moved m d n). split; [apply (walk_forward_moved m s d Hr He Hs)|].
  split; [exact He'|]. split; [reflexivity|].
  intros Hfar.
  assert (H0 : steps_to_boundary (moved m d n) d = 0).
  { rewrite steps_to_boundary_moved. unfold n. lia. }
  split.
  - apply at_edge_no_room; [exact He' | eauto].
  - rewrite look_default_direction.
    change (default (heading (moved m d n)) direction) with d.
    destruct (look_forward_spec (moved m d n) None d Hr He' I)
      as (vs & Hl & Hlen & _).
    simpl in Hlen. rewrite H0 in Hlen.
    destruct vs; [exact Hl | simpl in Hlen; lia].
Qed.

(** X11: [at_edge] says that some scan is empty: for an enclosed cursor on
    a rectangular grid, [at_edge] is true iff the unbounded [look] returns
    the empty list in at least one direction. *)
Theorem at_edge_iff_some_look_empty m :
  rectangular (df m) = true -> enclosed m ->
  (at_edge m = true <-> exists d, look m None (Some d) = Ok (Cells [])).
Proof.
  intros Hr He. rewrite (at_edge_no_room m He).
  split; intros [d Hd]; exists d.
  - destruct (look_forward_spec m None d Hr He I) as (vs & Hl & Hlen & _).
    simpl in Hlen. rewrite Hd in Hlen.
    destruct vs; [exact Hl | simpl in Hlen; lia].
  - destruct (look_forward_spec m None d Hr He I) as (vs & Hl & Hlen & _).
    simpl in Hlen. rewrite Hd in Hl. injection Hl as <-.
    simpl in Hlen. lia.
Qed.

End WalkFacts.

Section CursorFacts.

Context {V : Type}.
Implicit Types m : AoCMap V.

(** X12: a successful position assignment puts the cursor exactly where
    asked, on the grid, and touches nothing else; assigning the old
    position back restores the navigator; and an enclosed cursor can always
    be assigned its own position. *)
Theorem set_position_round_trip m cx cy m' :
  set_position m (cx, cy) = Ok m' ->
  position m' = (cx, cy) /\ enclosed m' /\
  df m' = df m /\ heading m' = heading m /\
  set_position m' (cx, cy) = Ok m' /\
  (enclosed m -> set_position m' (position m) = Ok m).
Proof.
  intros Hset.
  assert (He : encloses m cx cy = true).
  { unfold set_position in Hset.
    destruct (encloses m cx cy); [reflexivity | discriminate Hset]. }
  unfold set_position in Hset. rewrite He in Hset. simpl in Hset.
  injection Hset as <-.
  split; [reflexivity|]. split; [exact He|].
  split; [reflexivity|]. split; [reflexivity|]. split.
  - unfold set_position.
    change (encloses (mkAoCMap (df m) cx cy (heading m)) cx cy)
      with (encloses m cx cy).
    rewrite He. reflexivity.
  - intros Hm. unfold set_position, position.
    change (encloses (mkAoCMap (df m) cx cy (heading m)) (x m) (y m))
      with (encloses m (x m) (y m)).
    rewrite Hm. destruct m; reflexivity.
Qed.

Lemma rotate_by_value m d1 d2 :
  exact_turn d1 -> exact_turn d2 ->
  (Direction.value (heading m) + d1 / 45) mod 8
  = (Direction.value (heading m) + d2 / 45) mod 8 ->
  rotate m d1 = rotate m d2.
Proof.
  intros H1 H2 H. unfold rotate.
  rewrite (rotate_steps_floor d1 H1), (rotate_steps_floor d2 H2).
  cbn [mbind result_bind]. rewrite H. reflexivity.
Qed.

(** X13: while [degrees // 45] is below 2^52 in magnitude, so that the
    float sum is exact, [rotate] does not raise and turns by the floor of
    [degrees / 45] compass steps: the half added before [int] never changes
    the result.  Grid and cursor are untouched. *)
Theorem rotate_turns_by_floor m degrees :
  exact_turn degrees ->
  exists h,
    rotate m degrees = Ok (mkAoCMap (df m) (x m) (y m) h) /\
    Direction.value h
    = (Direction.value (heading m) + degrees / 45) mod 8.
Proof. intros Hx. apply rotate_total, Hx. Qed.

(** X14: within that range rotations compose and are periodic: adding
    whole turns changes nothing, and a rotation by a multiple of 45
    followed by any rotation is the rotation by the sum. *)
Theorem rotate_compose m a k degrees :
  exact_turn degrees -> exact_turn (degrees + 360 * k) ->
  Z.abs a < 2 ^ 52 -> exact_turn (45 * a + degrees) ->
  rotate m (degrees + 360 * k) = rotate m degrees /\
  (m' ← rotate m (45 * a); rotate m' degrees) = rotate m (45 * a + degrees).
Proof.
  intros Hd Hdk Ha Had. split.
  - apply rotate_by_value; [exact Hdk | exact Hd |].
    replace (degrees + 360 * k) with (degrees + (8 * k) * 45) by lia.
    rewrite Z.div_add by lia.
    replace (Direction.value (heading m) + (degrees / 45 + 8 * k))
      with (Direction.value (heading m) + degrees / 45 + k * 8) by lia.
    apply Z_mod_plus_full.
  - destruct (rotate_multiple_of_45 m a Ha) as (h & Hr & Hv).
    rewrite Hr. cbn [mbind result_bind].
    destruct (rotate_total (mkAoCMap (df m) (x m) (y m) h) degrees Hd)
      as (h1 & Hr1 & Hv1).
    destruct (rotate_total m (45 * a + degrees) Had) as (h2 & Hr2 & Hv2).
    rewrite Hr1, Hr2. simpl in *. do 2 f_equal. apply value_inj.
    rewrite Hv1, Hv2, Hv. rewrite Zplus_mod_idemp_l.
    replace (45 * a + degrees) with (degrees + a * 45) by lia.
    rewrite Z.div_add by lia. f_equal. lia.
Qed.

(** X15: turning there and back, within that range.  [rotate(d)] followed
    by [rotate(-d)] restores the navigator when [d] is a multiple of 45,
    and otherwise leaves the heading one compass step counter-clockwise of
    where it started, both calls having rounded toward minus infinity. *)
Theorem rotate_there_and_back m d :
  exact_turn d -> exact_turn (- d) ->
  exists h,
    (m' ← rotate m d; rotate m' (- d))
    = Ok (mkAoCMap (df m) (x m) (y m) h) /\
    Direction.value h
    = (Direction.value (heading m) + (if d mod 45 =? 0 then 0 else -1)) mod 8
    /\ (d mod 45 = 0 -> (m' ← rotate m d; rotate m' (- d)) = Ok m).
Proof.
  intros Hd Hnd.
  destruct (rotate_total m d Hd) as (h1 & Hr1 & Hv1).
  rewrite Hr1. cbn [mbind result_bind].
  destruct (rotate_total (mkAoCMap (df m) (x m) (y m) h1) (- d) Hnd)
    as (h2 & Hr2 & Hv2).
  rewrite Hr2. simpl in *.
  assert (Hv : Direction.value h2
    = (Direction.value (heading m) + (if d mod 45 =? 0 then 0 else -1)) mod 8).
  { rewrite Hv2, Hv1, Zplus_mod_idemp_l. f_equal.
    destruct (d mod 45 =? 0) eqn:E.
    - apply Z.eqb_eq in E. Z.div_mod_to_equations. lia.
    - apply Z.eqb_neq in E. Z.div_mod_to_equations. lia. }
  exists h2. split; [reflexivity|]. split; [exact Hv|].
  intros H0. rewrite H0 in Hv. simpl in Hv. rewrite Z.add_0_r in Hv.
  assert (h2 = heading m) as ->.
  { apply value_inj. rewrite Hv. destruct (heading m); reflexivity. }
  destruct m; reflexivity.
Qed.

End CursorFacts.

(** * The aggregate view [element_positions] *)

Lemma for_each_app {A St : Type} (body : St -> A -> result St)
  (l1 l2 : list A) (s : St) :
  for_each (l1 ++ l2) body s = s' ← for_each l1 body s; for_each l2 body s'.
Proof.
  revert s. induction l1 as [|a l1 IH]; intros s; simpl.
  - reflexivity.
  - destruct (body s a) as [s1|e]; simpl; [apply IH | reflexivity].
Qed.

Lemma for_each_fmap {A B St : Type} (f : A -> B) (body : St -> B -> result St)
  (l : list A) (s : St) :
  for_each (f <$> l) body s = for_each l (fun s a => body s (f a)) s.
Proof.
  revert s. induction l as [|a l IH]; intros s; simpl; [reflexivity|].
  destruct (body s (f a)); simpl; [apply IH | reflexivity].
Qed.

(** Two nested loops are one loop over the pairs, outer index first. *)
Lemma for_each_nested {A B St : Type} (g : St -> A -> B -> result St)
  (l1 : list A) (l2 : list B) (s : St) :
  for_each l1 (fun s a => for_each l2 (fun s b => g s a b) s) s
  = for_each (a ← l1; pair a <$> l2) (fun s ab => g s (fst ab) (snd ab)) s.
Proof.
  revert s. induction l1 as [|a l1 IH]; intros s; simpl; [reflexivity|].
  rewrite for_each_app, for_each_fmap. simpl.
  destruct (for_each l2 (fun s b => g s a b) s) as [s1|e]; simpl;
    [apply IH | reflexivity].
Qed.

Lemma elem_of_py_range (lo hi i : Z) : i ∈ py_range lo hi <-> lo <= i < hi.
Proof.
  unfold py_range. rewrite list_elem_of_fmap. split.
  - intros (n & -> & Hn). apply elem_of_seq in Hn. lia.
  - intros Hi. exists (Z.to_nat (i - lo)). split; [lia|].
    apply elem_of_seq. lia.
Qed.

Section ElementPositionsFacts.

Context {V : Type} `{EqDecision V}.
Variable py_lt : V -> V -> bool.
Implicit Types (m : AoCMap V) (items : list (V * list (Z * Z))).

Lemma elem_of_all_cells m cx cy :
  (cx, cy) ∈ all_cells m <-> encloses m cx cy = true.
Proof.
  unfold all_cells. rewrite list_elem_of_bind, encloses_bounds. split.
  - intros (x0 & Hin & Hx). apply list_elem_of_fmap in Hin as (y0 & [= -> ->] & Hy).
    apply elem_of_py_range in Hx, Hy. lia.
  - intros [Hx Hy]. exists cx. split.
    + apply list_elem_of_fmap. exists cy. split; [reflexivity|].
      apply elem_of_py_range. lia.
    + apply elem_of_py_range. lia.
Qed.

Lemma listed_append k k' p items :
  listed k (defaultdict_append k' p items)
  = listed k items ++ (if decide (k = k') then [p] else []).
Proof.
  unfold listed. induction items as [|[k0 ps] items IH]; simpl.
  - destruct (decide (k = k')); reflexivity.
  - destruct (decide (k' = k0)) as [->|Hne]; simpl.
    + destruct (decide (k = k0)) as [->|Hne']; simpl.
      * reflexivity.
      * rewrite app_nil_r. reflexivity.
    + destruct (decide (k = k0)) as [->|Hne']; simpl.
      * rewrite decide_False by congruence. rewrite app_nil_r. reflexivity.
      * exact IH.
Qed.

Lemma keys_append k p items k0 :
  k0 ∈ (defaultdict_append k p items).*1 <-> k0 = k \/ k0 ∈ items.*1.
Proof.
  induction items as [|[k1 ps] items IH]; simpl.
  - rewrite list_elem_of_singleton. split; [tauto|].
    intros [Hk|Hk]; [exact Hk | inversion Hk].
  - destruct (decide (k = k1)) as [->|Hne]; simpl.
    + rewrite elem_of_cons. tauto.
    + rewrite !elem_of_cons, IH. tauto.
Qed.

Lemma keys_append_NoDup k p items :
  NoDup items.*1 -> NoDup (defaultdict_append k p items).*1.
Proof.
  induction items as [|[k1 ps] items IH]; simpl; intros Hnd.
  - apply NoDup_singleton.
  - apply NoDup_cons in Hnd as [Hk1 Hnd].
    destruct (decide (k = k1)) as [->|Hne]; simpl.
    + apply NoDup_cons. split; assumption.
    + apply NoDup_cons. split; [|apply IH, Hnd].
      rewrite keys_append. intros [Hk|Hk]; [congruence | exact (Hk1 Hk)].
Qed.

Lemma dict_get_Some {A : Type} (k : V) (items : list (V * A)) (a : A) :
  NoDup items.*1 -> (dict_get k items = Some a <-> (k, a) ∈ items).
Proof.
  induction items as [|[k0 a0] items IH]; simpl; intros Hnd.
  - split; [discriminate | intros H0; inversion H0].
  - apply NoDup_cons in Hnd as [Hk0 Hnd].
    rewrite elem_of_cons. destruct (decide (k = k0)) as [->|Hne].
    + split.
      * intros [= ->]. left. reflexivity.
      * intros [[= ->]|Hin]; [reflexivity|].
        exfalso. apply Hk0. apply list_elem_of_fmap. exists (k0, a). eauto.
    + rewrite (IH Hnd). split; [tauto|].
      intros [[= -> ->]|Hin]; [congruence | exact Hin].
Qed.

Lemma dict_get_None {A : Type} (k : V) (items : list (V * A)) :
  dict_get k items = None <-> k ∉ items.*1.
Proof.
  induction items as [|[k0 a0] items IH]; simpl.
  - split; [intros _; apply not_elem_of_nil | reflexivity].
  - rewrite elem_of_cons. destruct (decide (k = k0)) as [->|Hne].
    + split; [discriminate | tauto].
    + rewrite IH. tauto.
Qed.

Lemma collect_cells m (cs : list (Z * Z)) items :
  rectangular (df m) = true ->
  (forall p, p ∈ cs -> encloses m (fst p) (snd p) = true) ->
  NoDup items.*1 ->
  (forall k, k ∈ items.*1 -> listed k items <> []) ->
  exists items',
    for_each cs (collect m) items = Ok items' /\
    NoDup items'.*1 /\
    (forall k, k ∈ items'.*1 -> listed k items' <> []) /\
    forall k, listed k items' = listed k items ++ List.filter (holds m k) cs.
Proof.
  intros Hr. revert items.
  induction cs as [|[cx cy] cs IH]; intros items Hin Hnd Hne.
  - exists items. split; [reflexivity|]. split; [exact Hnd|].
    split; [exact Hne|]. intros k. simpl. rewrite app_nil_r. reflexivity.
  - pose proof (Hin (cx, cy) ltac:(apply list_elem_of_here)) as He.
    apply encloses_bounds in He. simpl in He.
    destruct (df_getitem_inside (df m) cy cx Hr) as [v Hv]; [tauto | tauto |].
    cbn [for_each].
    change (collect m items (cx, cy))
      with (v0 ← df_getitem (df m) cy cx;
            Ok (defaultdict_append v0 (cx, cy) items)).
    rewrite Hv. cbn [mbind result_bind].
    destruct (IH (defaultdict_append v (cx, cy) items))
      as (items' & Hrun & Hnd' & Hne' & Hl).
    { intros p Hp. apply Hin, list_elem_of_further, Hp. }
    { apply keys_append_NoDup, Hnd. }
    { intros k Hk. rewrite listed_append.
      apply keys_append in Hk.
      destruct (decide (k = v)) as [->|Hkv].
      - intros Habs. apply app_eq_nil in Habs as [_ Habs]. discriminate.
      - rewrite app_nil_r. apply Hne. tauto. }
    exists items'. split; [exact Hrun|]. split; [exact Hnd'|].
    split; [exact Hne'|].
    intros k. rewrite Hl, listed_append. cbn [List.filter].
    unfold holds at 2. cbn [fst snd]. rewrite Hv.
    rewrite <- app_assoc. f_equal.
    destruct (decide (k = v)) as [->|Hkv].
    + rewrite bool_decide_eq_true_2 by reflexivity. reflexivity.
    + rewrite bool_decide_eq_false_2 by congruence. reflexivity.
Qed.

Lemma sorted_insert_perm {A : Type} (it : V * A) (l : list (V * A)) :
  sorted_insert py_lt it l ≡ₚ it :: l.
Proof.
  induction l as [|it' l IH]; simpl; [reflexivity|].
  destruct (py_lt (fst it') (fst it)); [|reflexivity].
  rewrite IH. apply Permutation_swap.
Qed.

Lemma sorted_perm {A : Type} (l : list (V * A)) : sorted py_lt l ≡ₚ l.
Proof.
  unfold sorted. induction l as [|it l IH]; simpl; [reflexivity|].
  rewrite sorted_insert_perm, IH. reflexivity.
Qed.

Lemma flattened_loops m :
  for_each (py_range 0 (x_max m))
    (fun rv x0 =>
       for_each (py_range 0 (y_max m))
         (fun rv y0 =>
            v ← df_getitem (df m) y0 x0;
            Ok (defaultdict_append v (x0, y0) rv))
         rv)
    []
  = for_each (all_cells m) (collect m) [].
Proof.
  rewrite (for_each_nested
             (fun rv x0 y0 =>
                v ← df_getitem (df m) y0 x0;
                Ok (defaultdict_append v (x0, y0) rv))).
  reflexivity.
Qed.

(** What [element_positions] returns, key by key. *)
Lemma element_positions_spec m :
  rectangular (df m) = true ->
  exists items,
    element_positions py_lt m = Ok items /\
    NoDup items.*1 /\
    forall k,
      dict_get k items
      = match List.filter (holds m k) (all_cells m) with
        | [] => None
        | ps => Some ps
        end.
Proof.
  intros Hr. unfold element_positions. rewrite flattened_loops.
  destruct (collect_cells m (all_cells m) [] Hr)
    as (items & Hrun & Hnd & Hne & Hl).
  { intros [cx cy] Hp. apply elem_of_all_cells, Hp. }
  { apply NoDup_nil_2. }
  { intros k Hk. inversion Hk. }
  rewrite Hrun. cbn [mbind result_bind].
  pose proof (sorted_perm items) as Hperm.
  assert (Hnd' : NoDup (sorted py_lt items).*1).
  { rewrite Hperm. exact Hnd. }
  exists (sorted py_lt items). split; [reflexivity|]. split; [exact Hnd'|].
  intros k. specialize (Hl k). simpl in Hl.
  destruct (dict_get k (sorted py_lt items)) as [ps|] eqn:Hget.
  - apply (dict_get_Some k _ ps Hnd') in Hget. rewrite Hperm in Hget.
    apply (dict_get_Some k _ ps Hnd) in Hget.
    assert (Hk : k ∈ items.*1).
    { apply dict_get_Some in Hget; [|exact Hnd].
      apply list_elem_of_fmap. exists (k, ps). split; [reflexivity | exact Hget]. }
    specialize (Hne k Hk). unfold listed in Hl, Hne. rewrite Hget in Hl, Hne.
    simpl in Hl, Hne. rewrite <- Hl. destruct ps; [congruence | reflexivity].
  - apply dict_get_None in Hget. rewrite Hperm in Hget.
    apply dict_get_None in Hget. unfold listed in Hl. rewrite Hget in Hl.
    simpl in Hl. rewrite <- Hl. reflexivity.
Qed.

Lemma holds_true m k cx cy :
  (cx, cy) ∈ all_cells m ->
  (holds m k (cx, cy) = true <-> getitem m (cx, cy) = Ok k).
Proof.
  intros Hin. apply elem_of_all_cells in Hin.
  rewrite getitem_enclosed by exact Hin. unfold holds. simpl.
  destruct (df_getitem (df m) cy cx) as [v|e].
  - rewrite bool_decide_eq_true. split; congruence.
  - split; discriminate.
Qed.

(** X16: [element_positions] files every cell of the grid under the value
    it holds, and nothing else: on a rectangular grid it returns a dict of
    distinct keys in which a position is listed under key [k] exactly when
    the grid reads [k] at that position; no key has an empty list. *)
Theorem element_positions_lists_every_cell m :
  rectangular (df m) = true ->
  exists items,
    element_positions py_lt m = Ok items /\
    NoDup items.*1 /\
    (forall k cx cy,
       (exists ps, dict_get k items = Some ps /\ (cx, cy) ∈ ps)
       <-> getitem m (cx, cy) = Ok k) /\
    (forall k, dict_get k items <> Some []).
Proof.
  intros Hr. destruct (element_positions_spec m Hr) as (items & He & Hnd & Hk).
  exists items. split; [exact He|]. split; [exact Hnd|]. split.
  - intros k cx cy. rewrite Hk. split.
    + intros (ps & Hps & Hin).
      assert (Hf : (cx, cy) ∈ List.filter (holds m k) (all_cells m)).
      { destruct (List.filter (holds m k) (all_cells m)); [discriminate|].
        injection Hps as <-. exact Hin. }
      apply list_elem_of_In, filter_In in Hf as [Hc Hh].
      apply list_elem_of_In in Hc. apply (holds_true m k cx cy Hc), Hh.
    + intros Hg.
      assert (Hc : (cx, cy) ∈ all_cells m).
      { apply elem_of_all_cells. unfold getitem in Hg. unfold encloses.
        destruct (in_range cx (x_max m)); [|discriminate Hg].
        destruct (in_range cy (y_max m)); [reflexivity | discriminate Hg]. }
      assert (Hf : (cx, cy) ∈ List.filter (holds m k) (all_cells m)).
      { apply list_elem_of_In, filter_In. split.
        - apply list_elem_of_In, Hc.
        - apply (holds_true m k cx cy Hc), Hg. }
      destruct (List.filter (holds m k) (all_cells m)) as [|p ps];
        [inversion Hf|].
      exists (p :: ps). split; [reflexivity | exact Hf].
  - intros k. rewrite Hk.
    destruct (List.filter (holds m k) (all_cells m)); discriminate.
Qed.

Lemma seq_sorted (a n : nat) : StronglySorted lt (seq a n).
Proof.
  revert a. induction n as [|n IH]; intros a; simpl; constructor.
  - apply IH.
  - apply Forall_forall. intros b Hb. apply elem_of_seq in Hb. lia.
Qed.

Lemma py_range_sorted (lo hi : Z) : StronglySorted Z.lt (py_range lo hi).
Proof.
  unfold py_range.
  apply (StronglySorted_fmap (fun i : nat => lo + Z.of_nat i) lt Z.lt).
  - intros a b Hab. lia.
  - apply seq_sorted.
Qed.

Lemma pairs_sorted (xs ys : list Z) :
  StronglySorted Z.lt xs -> StronglySorted Z.lt ys ->
  StronglySorted column_major_lt (x0 ← xs; pair x0 <$> ys).
Proof.
  intros Hxs Hys. induction Hxs as [|x0 xs Hxs IH Hall]; simpl.
  - constructor.
  - apply StronglySorted_app_2; [| | exact IH].
    + intros p q Hp Hq.
      apply list_elem_of_fmap in Hp as (y1 & -> & _).
      apply list_elem_of_bind in Hq as (x1 & Hq & Hx1).
      apply list_elem_of_fmap in Hq as (y2 & -> & _).
      left. simpl. rewrite Forall_forall in Hall. apply Hall, Hx1.
    + apply (StronglySorted_fmap (pair x0) Z.lt column_major_lt);
        [|exact Hys].
      intros a b Hab. right. simpl. split; [reflexivity | exact Hab].
Qed.

Lemma filter_sorted {A : Type} (R : relation A) (f : A -> bool) (l : list A) :
  StronglySorted R l -> StronglySorted R (List.filter f l).
Proof.
  induction 1 as [|a l Hl IH Hall]; simpl; [constructor|].
  destruct (f a); [|exact IH].
  constructor; [exact IH|].
  rewrite Forall_forall in *. intros b Hb.
  apply list_elem_of_In, filter_In in Hb as [Hb _].
  apply Hall, list_elem_of_In, Hb.
Qed.

(** X17: under each key the positions come in the order the grid is
    walked, column by column and top to bottom within a column: the list of
    key [k] is the column-major enumeration of the grid's coordinates
    filtered to the cells holding [k], so it is strictly increasing in
    column-major order and repeats no position. *)
Theorem element_positions_column_major m k ps :
  rectangular (df m) = true ->
  (exists items,
     element_positions py_lt m = Ok items /\ dict_get k items = Some ps) ->
  ps = List.filter (holds m k) (all_cells m) /\
  StronglySorted column_major_lt ps /\ NoDup ps.
Proof.
  intros Hr (items & He & Hget).
  destruct (element_positions_spec m Hr) as (items' & He' & _ & Hk).
  rewrite He in He'. injection He' as <-.
  rewrite Hk in Hget.
  assert (Hps : ps = List.filter (holds m k) (all_cells m)).
  { destruct (List.filter (holds m k) (all_cells m)); congruence. }
  assert (Hs : StronglySorted column_major_lt ps).
  { rewrite Hps. apply filter_sorted. unfold all_cells.
    apply pairs_sorted; apply py_range_sorted. }
  split; [exact Hps|]. split; [exact Hs|].
  clear -Hs. induction Hs as [|p ps Hs IH Hall]; [apply NoDup_nil_2|].
  apply NoDup_cons. split; [|exact IH].
  intros Hin. rewrite Forall_forall in Hall. specialize (Hall p Hin).
  unfold column_major_lt in Hall. lia.
Qed.

Lemma sorted_insert_Sorted {A : Type} (it : V * A) (l : list (V * A)) :
  (forall a b, py_lt a b = true -> py_lt b a = false) ->
  Sorted (fun a b => py_lt (fst b) (fst a) = false) l ->
  Sorted (fun a b => py_lt (fst b) (fst a) = false) (sorted_insert py_lt it l).
Proof.
  intros Hasym. induction l as [|it' l IH]; intros Hs; simpl.
  - repeat constructor.
  - apply Sorted_inv in Hs as [Hs Hhd].
    destruct (py_lt (fst it') (fst it)) eqn:Hlt.
    + constructor; [apply IH, Hs|].
      destruct l as [|it'' l]; simpl.
      * constructor. apply Hasym, Hlt.
      * destruct (py_lt (fst it'') (fst it)).
        -- constructor. inversion Hhd; assumption.
        -- constructor. apply Hasym, Hlt.
    + constructor; [constructor; assumption|].
      constructor. exact Hlt.
Qed.

Lemma sorted_Sorted {A : Type} (l : list (V * A)) :
  (forall a b, py_lt a b = true -> py_lt b a = false) ->
  Sorted (fun a b => py_lt (fst b) (fst a) = false) (sorted py_lt l).
Proof.
  intros Hasym. unfold sorted. induction l as [|it l IH]; simpl.
  - constructor.
  - apply sorted_insert_Sorted; assumption.
Qed.

Lemma Sorted_strict {A : Type} (l : list (V * A)) :
  (forall a b, a <> b -> py_lt a b = true \/ py_lt b a = true) ->
  NoDup l.*1 ->
  Sorted (fun a b => py_lt (fst b) (fst a) = false) l ->
  Sorted (fun a b => py_lt (fst a) (fst b) = true) l.
Proof.
  intros Htot. induction l as [|it l IH]; intros Hnd Hs.
  - constructor.
  - apply Sorted_inv in Hs as [Hs Hhd]. simpl in Hnd.
    apply NoDup_cons in Hnd as [Hit Hnd].
    constructor; [apply IH; assumption|].
    destruct l as [|it' l]; constructor.
    inversion Hhd as [|? ? Hle]; subst.
    destruct (Htot (fst it) (fst it')) as [H1|H1].
    + intros Heq. apply Hit. rewrite Heq. simpl. apply list_elem_of_here.
    + exact H1.
    + congruence.
Qed.

(** X18: the keys come out in ascending order.  When [<] is a strict total
    order on the values of the grid, the items of [element_positions] are
    sorted by key, each key smaller than all the keys after it. *)
Theorem element_positions_keys_ascending m :
  (forall a b, py_lt a b = true -> py_lt b a = false) ->
  (forall a b c, py_lt a b = true -> py_lt b c = true -> py_lt a c = true) ->
  (forall a b, a <> b -> py_lt a b = true \/ py_lt b a = true) ->
  rectangular (df m) = true ->
  exists items,
    element_positions py_lt m = Ok items /\ keys_ascending py_lt items.
Proof.
  intros Hasym Htrans Htot Hr.
  destruct (element_positions_spec m Hr) as (items & He & Hnd & _).
  exists items. split; [exact He|].
  unfold element_positions in He. rewrite flattened_loops in He.
  destruct (for_each (all_cells m) (collect m) []) as [rv|e];
    [|discriminate He].
  cbn [mbind result_bind] in He. injection He as <-.
  unfold keys_ascending.
  apply Sorted_StronglySorted.
  - intros a b c Hab Hbc. exact (Htrans _ _ _ Hab Hbc).
  - apply Sorted_strict; [exact Htot | exact Hnd |].
    apply sorted_Sorted, Hasym.
Qed.

End ElementPositionsFacts.

(** * The test runner *)

Section TesterFacts.

Context {Data Shown : Type}.
Variable slice5 : Data -> result Shown.
Variable test_function : Data -> result Z.

Local Abbreviation run_cases := (AoCTester.run_cases slice5 test_function).
Local Abbreviation run_tests := (AoCTester.run_tests slice5 test_function).
Local Abbreviation passes := (AoCTester.passes slice5 test_function).
Local Abbreviation report := (AoCTester.report slice5 test_function).

Lemma run_cases_passing (pre rest : list (Data * Z))
  (out : list (AoCTester.printed Shown)) :
  Forall passes pre ->
  run_cases (pre ++ rest) out
  = run_cases rest (out ++ concat (report <$> pre)).
Proof.
  intros Hpre. revert out.
  induction Hpre as [|[d o] pre [Hf [shown Hs]] Hpre IH]; intros out.
  - simpl. rewrite app_nil_r. reflexivity.
  - simpl in Hf, Hs.
    cbn [app AoCTester.run_cases fst snd fmap list_fmap concat].
    unfold AoCTester.report at 1. cbn [fst snd].
    rewrite Hf, Hs, Z.eqb_refl, IH, <- app_assoc. reflexivity.
Qed.

Lemma run_cases_returns (cases : list (Data * Z))
  (out : list (AoCTester.printed Shown)) :
  snd (run_cases cases out) = None <-> Forall passes cases.
Proof.
  revert out. induction cases as [|[d o] cases IH]; intros out.
  - simpl. split; [constructor | reflexivity].
  - cbn [AoCTester.run_cases fst snd]. rewrite Forall_cons.
    unfold AoCTester.passes at 1. cbn [fst snd].
    destruct (test_function d) as [actual|e].
    + destruct (slice5 d) as [shown|e].
      * destruct (Z.eqb_spec o actual) as [->|Hne].
        -- rewrite IH. split; [intros H; split; [split; eauto|exact H]|tauto].
        -- simpl. split; [discriminate|].
           intros [[[= Heq] _] _]. congruence.
      * simpl. split; [discriminate|]. intros [[_ [? Hs]] _]. discriminate.
    + simpl. split; [discriminate|]. intros [[Hx _] _]. discriminate.
Qed.

(** X19: [run_tests] returns normally exactly when every test case
    passes, that is when the function returns the expected output on each
    input (and each input can be shown with [data[:5]]); it then has
    printed the four lines of every case in order, or only the warning when
    there is no test case. *)
Theorem run_tests_returns_iff_all_pass (self : AoCTester.t Data) :
  (snd (run_tests self) = None
   <-> Forall passes (AoCTester.test_cases self)) /\
  (Forall passes (AoCTester.test_cases self) ->
   fst (run_tests self)
   = match AoCTester.test_cases self with
     | [] => [AoCTester.Warning]
     | cases => concat (report <$> cases)
     end).
Proof.
  unfold AoCTester.run_tests. split; [apply run_cases_returns|].
  intros Hall.
  pose proof (run_cases_passing (AoCTester.test_cases self) [] [] Hall) as H.
  rewrite app_nil_r in H.
  destruct (AoCTester.test_cases self) as [|c cases] eqn:E.
  - reflexivity.
  - rewrite H. reflexivity.
Qed.

(** X20: [run_tests] stops at the first wrong answer.  If the cases before
    a given one all pass and the function returns something else than
    expected on that one, [run_tests] raises AssertionError having printed
    the lines of the cases up to and including the failing one; the cases
    after it are not run. *)
Theorem run_tests_stops_at_first_failure
  (pre post : list (Data * Z)) (d : Data) (o actual : Z) (shown : Shown) :
  Forall passes pre ->
  test_function d = Ok actual -> actual <> o -> slice5 d = Ok shown ->
  run_tests (AoCTester.mk (pre ++ (d, o) :: post))
  = (concat (report <$> pre)
     ++ [AoCTester.ShowData shown; AoCTester.ShowExpected o;
         AoCTester.ShowActual actual; AoCTester.ShowEqual false],
     Some AoCTester.AssertionError).
Proof.
  intros Hpre Hf Hne Hs. unfold AoCTester.run_tests.
  cbn [AoCTester.test_cases].
  assert (Hout : match pre ++ (d, o) :: post with
                 | [] => [AoCTester.Warning]
                 | _ => []
                 end = @nil (AoCTester.printed Shown)).
  { destruct pre; reflexivity. }
  rewrite Hout, (run_cases_passing pre _ [] Hpre).
  cbn [AoCTester.run_cases fst snd app]. rewrite Hf, Hs.
  replace (o =? actual) with false by (symmetry; apply Z.eqb_neq; congruence).
  reflexivity.
Qed.

(** X21: building and clearing the list of cases.  After
    [clear_test_case], [run_tests] prints the warning and returns without
    calling the function; and after [add_test_case(data, output)],
    [run_tests] returns normally iff it did before and the new case
    passes. *)
Theorem add_and_clear_test_cases (self : AoCTester.t Data) (d : Data) (o : Z) :
  run_tests (AoCTester.clear_test_case self) = ([AoCTester.Warning], None) /\
  (snd (run_tests (AoCTester.add_test_case self d o)) = None
   <-> snd (run_tests self) = None /\ passes (d, o)).
Proof.
  split; [reflexivity|].
  unfold AoCTester.run_tests, AoCTester.add_test_case.
  cbn [AoCTester.test_cases].
  rewrite !run_cases_returns, Forall_app, Forall_singleton. reflexivity.
Qed.

End TesterFacts.

(** * Puzzle text: AoCData *)

Section DataFacts.

Context {char : Type} `{EqDecision char}.
Variable isspace : char -> bool.
Variable isdigit : char -> bool.
Variable decimal_value : char -> option Z.
Variable int_max_str_digits : nat.

Local Abbreviation strip := (AoCData.strip isspace).
Local Abbreviation new := (AoCData.new isspace).
Local Abbreviation as_int :=
  (AoCData.as_int isdigit decimal_value int_max_str_digits).
Local Abbreviation int_of_digits :=
  (AoCData.int_of_digits decimal_value int_max_str_digits).
Local Abbreviation drop_while := (AoCData.drop_while isspace).

Lemma drop_while_split (s : list char) :
  exists pre, s = pre ++ drop_while s /\ Forall (fun c => isspace c = true) pre.
Proof.
  induction s as [|c s (pre & Hs & Hpre)]; simpl.
  - exists []. split; [reflexivity | constructor].
  - destruct (isspace c) eqn:Hc.
    + exists (c :: pre). split; [simpl; congruence | constructor; assumption].
    + exists []. split; [reflexivity | constructor].
Qed.

Lemma drop_while_head (s : list char) c :
  head (drop_while s) = Some c -> isspace c = false.
Proof.
  induction s as [|c0 s IH]; simpl; [discriminate|].
  destruct (isspace c0) eqn:Hc; [exact IH|].
  simpl. intros [= <-]. exact Hc.
Qed.

Lemma drop_while_fixed (s : list char) :
  (forall c, head s = Some c -> isspace c = false) -> drop_while s = s.
Proof.
  destruct s as [|c s]; simpl; [reflexivity|].
  intros Hc. rewrite (Hc c eq_refl). reflexivity.
Qed.

Lemma head_app_nonempty (a b : list char) c :
  head a = Some c -> head (a ++ b) = Some c.
Proof. destruct a; simpl; [discriminate | trivial]. Qed.

Lemma last_rev_head (s : list char) : last (rev s) = head s.
Proof.
  destruct s as [|c s]; [reflexivity|]. simpl. apply last_snoc.
Qed.

Lemma strip_decompose (raw : list char) :
  exists pre post,
    raw = pre ++ strip raw ++ post /\
    Forall (fun c => isspace c = true) pre /\
    Forall (fun c => isspace c = true) post /\
    (forall c, head (strip raw) = Some c -> isspace c = false) /\
    (forall c, last (strip raw) = Some c -> isspace c = false).
Proof.
  unfold AoCData.strip.
  destruct (drop_while_split raw) as (pre & Hraw & Hpre).
  set (a := drop_while raw) in *.
  destruct (drop_while_split (rev a)) as (post' & Ha & Hpost).
  set (b := drop_while (rev a)) in *.
  assert (Ha' : a = rev b ++ rev post').
  { rewrite <- (rev_involutive a), Ha, rev_app_distr. reflexivity. }
  exists pre, (rev post'). split; [congruence|]. split; [exact Hpre|].
  split; [apply Forall_rev, Hpost|]. split.
  - intros c Hc. apply (drop_while_head raw c). fold a. rewrite Ha'.
    apply head_app_nonempty, Hc.
  - intros c Hc. rewrite last_rev_head in Hc.
    apply (drop_while_head (rev a) c), Hc.
Qed.

(** X22: what the constructor keeps of the text.  [AoCData(raw)] stores
    [raw] with a run of whitespace removed from each end and nothing else
    changed; the stored text neither starts nor ends with whitespace; and
    building again from the stored text gives the same object. *)
Theorem new_strips_both_ends (raw : list char) :
  exists pre post,
    raw = pre ++ AoCData.raw_data (new raw) ++ post /\
    Forall (fun c => isspace c = true) pre /\
    Forall (fun c => isspace c = true) post /\
    (forall c, head (AoCData.raw_data (new raw)) = Some c ->
       isspace c = false) /\
    (forall c, last (AoCData.raw_data (new raw)) = Some c ->
       isspace c = false) /\
    new (AoCData.raw_data (new raw)) = new raw.
Proof.
  destruct (strip_decompose raw) as (pre & post & Hraw & Hpre & Hpost & Hh & Hl).
  exists pre, post. simpl. repeat split; try assumption.
  unfold AoCData.new. f_equal. unfold AoCData.strip at 1.
  rewrite (drop_while_fixed (strip raw) Hh).
  rewrite drop_while_fixed.
  - apply rev_involutive.
  - intros c Hc. apply Hl. rewrite <- last_rev_head, rev_involutive in Hc.
    exact Hc.
Qed.

Lemma filter_none (f : char -> bool) (s : list char) :
  Forall (fun c => f c = false) s -> List.filter f s = [].
Proof.
  induction 1 as [|c s Hc _ IH]; simpl; [reflexivity|].
  rewrite Hc. exact IH.
Qed.

Lemma decimal_nonneg (ds : list Z) (acc : Z) :
  Forall (fun d => 0 <= d) ds -> 0 <= acc ->
  0 <= foldl (fun acc d => 10 * acc + d) acc ds.
Proof.
  intros Hds. revert acc. induction Hds as [|d ds Hd _ IH]; intros acc Hacc;
    simpl; [exact Hacc|].
  apply IH. lia.
Qed.

(** X23: [as_int] reads the digits of the text and nothing else.  On
    [AoCData(raw)] it is [int] of the digit characters of [raw] in order,
    so whitespace, signs and letters play no part: it raises ValueError
    when [raw] has no digit, and when the digits are decimal and within
    the interpreter's length limit it returns the non-negative number they
    write. *)
Theorem as_int_reads_digits_only (raw : list char) :
  (forall c, isspace c = true -> isdigit c = false) ->
  (forall c v, decimal_value c = Some v -> 0 <= v) ->
  let digits := List.filter isdigit raw in
  as_int (new raw) = int_of_digits digits /\
  (digits = [] -> as_int (new raw) = Raise ValueError) /\
  (forall ds,
     digits <> [] ->
     (int_max_str_digits = 0%nat \/ (length digits <= int_max_str_digits)%nat) ->
     mapM decimal_value digits = Some ds ->
     as_int (new raw) = Ok (AoCData.decimal ds) /\ 0 <= AoCData.decimal ds).
Proof.
  intros Hsd Hnn digits.
  assert (Hsame : as_int (new raw) = int_of_digits digits).
  { unfold AoCData.as_int. f_equal. simpl.
    destruct (strip_decompose raw) as (pre & post & Hraw & Hpre & Hpost & _).
    unfold digits. rewrite Hraw at 2. rewrite !List.filter_app.
    rewrite (filter_none isdigit pre), (filter_none isdigit post).
    - rewrite app_nil_r. reflexivity.
    - eapply Forall_impl; [exact Hpost | intros c; apply Hsd].
    - eapply Forall_impl; [exact Hpre | intros c; apply Hsd]. }
  split; [exact Hsame|]. split.
  - intros Hd. rewrite Hsame, Hd. reflexivity.
  - intros ds Hne Hlim Hds. rewrite Hsame.
    unfold AoCData.int_of_digits. destruct digits as [|c digits']; [congruence|].
    assert (Hl : ((0 <? int_max_str_digits)%nat
                  && (int_max_str_digits <? length (c :: digits'))%nat) = false).
    { apply andb_false_iff. destruct Hlim as [-> | Hle].
      - left. reflexivity.
      - right. apply Nat.ltb_ge. exact Hle. }
    rewrite Hl, Hds. split; [reflexivity|].
    apply decimal_nonneg; [|lia].
    apply mapM_Some in Hds.
    clear -Hds Hnn. induction Hds as [|c0 d l ds' Hc _ IH]; constructor.
    + apply (Hnn c0 d Hc).
    + exact IH.
Qed.

Lemma startswith_spec (sep s : list char) :
  AoCData.startswith sep s = true <-> exists rest, s = sep ++ rest.
Proof.
  revert s. induction sep as [|a sep IH]; intros s; simpl.
  - split; [eauto | reflexivity].
  - destruct s as [|b s].
    + split; [discriminate | intros [rest Hr]; discriminate].
    + rewrite andb_true_iff, bool_decide_eq_true, IH. split.
      * intros [-> [rest ->]]. eauto.
      * intros [rest [= -> ->]]. eauto.
Qed.

Lemma split_from_skip (sep : list char) (k : nat) (piece s : list char) :
  (k <= length s)%nat ->
  AoCData.split_from sep k piece s = AoCData.split_from sep 0 piece (drop k s).
Proof.
  revert s. induction k as [|k IH]; intros s Hk.
  - rewrite drop_0. reflexivity.
  - destruct s as [|c s]; simpl in *; [lia|]. apply IH. lia.
Qed.

Lemma split_from_nonempty (sep : list char) (k : nat) (piece s : list char) :
  AoCData.split_from sep k piece s <> [].
Proof.
  revert k piece. induction s as [|c s IH]; intros k piece; simpl.
  - discriminate.
  - destruct k; [|apply IH].
    destruct (AoCData.startswith sep (c :: s)); [discriminate | apply IH].
Qed.

Lemma join_cons (sep piece : list char) (rest : list (list char)) :
  rest <> [] ->
  AoCData.join sep (piece :: rest) = piece ++ sep ++ AoCData.join sep rest.
Proof. destruct rest; [congruence | reflexivity]. Qed.

Lemma join_split_from (sep : list char) (n : nat) :
  sep <> [] ->
  forall s piece, (length s <= n)%nat ->
    AoCData.join sep (AoCData.split_from sep 0 piece s) = piece ++ s.
Proof.
  intros Hsep. induction n as [|n IH]; intros s piece Hn.
  - destruct s; simpl in *; [|lia]. rewrite app_nil_r. reflexivity.
  - destruct s as [|c s]; [simpl; rewrite app_nil_r; reflexivity|].
    cbn [AoCData.split_from].
    destruct (AoCData.startswith sep (c :: s)) eqn:Hst.
    + apply startswith_spec in Hst as [rest Hrest].
      destruct sep as [|a sep']; [congruence|].
      simpl in Hrest. injection Hrest as -> ->.
      rewrite split_from_skip by (simpl; rewrite length_app; lia).
      replace (length (a :: sep') - 1)%nat with (length sep') by (simpl; lia).
      rewrite drop_app_length.
      rewrite join_cons by apply split_from_nonempty.
      rewrite IH by (simpl in Hn; rewrite length_app in Hn; lia).
      reflexivity.
    + rewrite IH by (simpl in Hn; lia).
      rewrite <- app_assoc. reflexivity.
Qed.

Lemma comprehension_Ok {A : Type} (l : list A) :
  comprehension (fun a => Ok a) l = Ok l.
Proof.
  induction l as [|a l IH]; simpl; [reflexivity|].
  rewrite IH. reflexivity.
Qed.

Lemma startswith_occurs (sep s : list char) :
  AoCData.startswith sep s = true <-> occurs_at sep s 0.
Proof.
  unfold occurs_at. rewrite drop_0, startswith_spec. split.
  - intros [rest ->]. apply take_app_length.
  - intros Ht. exists (drop (length sep) s).
    rewrite <- Ht at 1. symmetry. apply take_drop.
Qed.

Lemma occurs_at_cons (sep s : list char) (c : char) (j : nat) :
  occurs_at sep (c :: s) (Datatypes.S j) <-> occurs_at sep s j.
Proof. reflexivity. Qed.

(** Where the separator does not occur the text is one piece. *)
Lemma split_from_no_occurrence (sep : list char) (s piece : list char) :
  (forall j, ~ occurs_at sep s j) ->
  AoCData.split_from sep 0 piece s = [piece ++ s].
Proof.
  revert piece. induction s as [|c s IH]; intros piece Hno.
  - simpl. rewrite app_nil_r. reflexivity.
  - cbn [AoCData.split_from].
    destruct (AoCData.startswith sep (c :: s)) eqn:Hst.
    + apply startswith_occurs in Hst. destruct (Hno 0%nat Hst).
    + rewrite IH.
      * rewrite <- app_assoc. reflexivity.
      * intros j Hj. apply (Hno (Datatypes.S j)). exact Hj.
Qed.

(** The text is cut at the leftmost occurrence of the separator and the
    scan goes on after it. *)
Lemma split_from_first_occurrence (sep : list char) (i : nat) :
  sep <> [] ->
  forall s piece,
    occurs_at sep s i -> (forall j, (j < i)%nat -> ~ occurs_at sep s j) ->
    AoCData.split_from sep 0 piece s
    = (piece ++ take i s)
      :: AoCData.split_from sep 0 [] (drop (i + length sep) s).
Proof.
  intros Hsep. induction i as [|i IH]; intros s piece Hat Hno.
  - pose proof (proj2 (startswith_occurs sep s) Hat) as Hst.
    destruct s as [|c s].
    + destruct sep; [congruence | discriminate].
    + cbn [AoCData.split_from]. rewrite Hst.
      rewrite take_0, app_nil_r. f_equal.
      apply startswith_spec in Hst as [rest Hrest].
      destruct sep as [|a sep']; [congruence|].
      simpl in Hrest. injection Hrest as -> ->.
      rewrite split_from_skip by (simpl; rewrite length_app; lia).
      replace (length (a :: sep') - 1)%nat with (length sep') by (simpl; lia).
      reflexivity.
  - destruct s as [|c s].
    + unfold occurs_at in Hat. rewrite drop_nil, take_nil in Hat.
      congruence.
    + cbn [AoCData.split_from].
      destruct (AoCData.startswith sep (c :: s)) eqn:Hst.
      * apply startswith_occurs in Hst. destruct (Hno 0%nat); [lia | exact Hst].
      * rewrite (IH s (piece ++ [c])).
        -- rewrite <- app_assoc. reflexivity.
        -- exact Hat.
        -- intros j Hj. apply (Hno (Datatypes.S j)). lia.
Qed.

Lemma create_tuple_separator (sep text : list char) :
  sep <> [] ->
  AoCData.create_tuple isspace (fun piece => Ok piece) (Some sep)
    (AoCData.mk text)
  = Ok (AoCData.split sep text).
Proof.
  intros Hsep. unfold AoCData.create_tuple.
  destruct sep as [|a sep']; [congruence|].
  apply comprehension_Ok.
Qed.

(** X24: [create_tuple] with a non-empty separator and [dtype=str] cuts
    the text at the separators and loses none of it.  It never raises,
    returns at least one piece, and joining the pieces with the separator
    gives the stored text back.  A text in which the separator does not
    occur is returned as its one piece; otherwise the first piece is the
    text before the leftmost occurrence of the separator and the others
    are the pieces of the text after that occurrence.  With the empty
    separator the result is the characters of the text, one element
    each. *)
Theorem create_tuple_split_join (sep : list char) (self : AoCData.t char) :
  sep <> [] ->
  let text := AoCData.raw_data self in
  let pieces_of s :=
    AoCData.create_tuple isspace (fun piece => Ok piece) (Some sep)
      (AoCData.mk s) in
  (exists pieces,
     AoCData.create_tuple isspace (fun piece => Ok piece) (Some sep) self
     = Ok pieces /\
     pieces <> [] /\
     AoCData.join sep pieces = text) /\
  ((forall j, ~ occurs_at sep text j) -> pieces_of text = Ok [text]) /\
  (forall i,
     occurs_at sep text i -> (forall j, (j < i)%nat -> ~ occurs_at sep text j) ->
     pieces_of text
     = (rest ← pieces_of (drop (i + length sep) text);
        Ok (take i text :: rest))) /\
  AoCData.create_tuple isspace (fun piece => Ok piece) (Some []) self
  = Ok ((fun c => [c]) <$> text).
Proof.
  intros Hsep text pieces_of.
  assert (Hsplit : forall s, pieces_of s = Ok (AoCData.split sep s)).
  { intros s. apply create_tuple_separator, Hsep. }
  split; [|split; [|split]].
  - exists (AoCData.split sep text).
    destruct self as [raw]. split; [apply (Hsplit raw)|].
    split; [apply split_from_nonempty|].
    unfold AoCData.split.
    apply (join_split_from sep (length raw) Hsep). subst text. simpl. lia.
  - intros Hno. rewrite Hsplit. unfold AoCData.split.
    rewrite split_from_no_occurrence by exact Hno. reflexivity.
  - intros i Hat Hno. rewrite !Hsplit. unfold AoCData.split.
    rewrite (split_from_first_occurrence sep i Hsep text [] Hat Hno).
    reflexivity.
  - unfold AoCData.create_tuple. apply comprehension_Ok.
Qed.

Lemma split_whitespace_spec (piece s : list char) :
  Forall (fun c => isspace c = false) piece ->
  Forall (fun p => p <> [] /\ Forall (fun c => isspace c = false) p)
    (AoCData.split_whitespace isspace piece s) /\
  concat (AoCData.split_whitespace isspace piece s)
  = piece ++ List.filter (fun c => negb (isspace c)) s.
Proof.
  revert piece. induction s as [|c s IH]; intros piece Hp; simpl.
  - destruct piece as [|c0 piece]; simpl.
    + split; [constructor | reflexivity].
    + split; [|rewrite !app_nil_r; reflexivity].
      constructor; [|constructor]. split; [discriminate | exact Hp].
  - destruct (isspace c) eqn:Hc; simpl.
    + destruct (IH [] ltac:(constructor)) as [Hall Hcat].
      destruct piece as [|c0 piece]; simpl.
      * split; [exact Hall | exact Hcat].
      * split.
        -- constructor; [|exact Hall]. split; [discriminate | exact Hp].
        -- rewrite Hcat. reflexivity.
    + destruct (IH (piece ++ [c])) as [Hall Hcat].
      { apply Forall_app. split; [exact Hp|].
        constructor; [exact Hc | constructor]. }
      split; [exact Hall|]. rewrite Hcat, <- app_assoc. reflexivity.
Qed.

Lemma split_whitespace_run (w piece rest : list char) :
  Forall (fun c => isspace c = false) w ->
  AoCData.split_whitespace isspace piece (w ++ rest)
  = AoCData.split_whitespace isspace (piece ++ w) rest.
Proof.
  intros Hw. revert piece.
  induction Hw as [|c w Hc _ IH]; intros piece.
  - rewrite app_nil_r. reflexivity.
  - simpl. rewrite Hc, IH, <- app_assoc. reflexivity.
Qed.

Lemma create_tuple_words (text : list char) :
  AoCData.create_tuple isspace (fun piece => Ok piece) None (AoCData.mk text)
  = Ok (AoCData.split_whitespace isspace [] text).
Proof. unfold AoCData.create_tuple. apply comprehension_Ok. Qed.

(** X25: [create_tuple] with [separator=None] and [dtype=str] returns
    the words of the text.  It never raises, no piece is empty, no piece
    holds whitespace, and the pieces put end to end are the stored text
    with its whitespace taken out.  The empty text has no words; a text
    that starts with a whitespace character has the words of what follows
    it; and a text that starts with a run of characters that are not
    whitespace, ended by the end of the text or by a whitespace character,
    has that run as its first word and the words of the rest after it. *)
Theorem create_tuple_whitespace (self : AoCData.t char) :
  let text := AoCData.raw_data self in
  let words_of s :=
    AoCData.create_tuple isspace (fun piece => Ok piece) None
      (AoCData.mk s) in
  (exists pieces,
     AoCData.create_tuple isspace (fun piece => Ok piece) None self
     = Ok pieces /\
     Forall (fun p => p <> [] /\ Forall (fun c => isspace c = false) p) pieces /\
     concat pieces = List.filter (fun c => negb (isspace c)) text) /\
  (text = [] -> words_of text = Ok []) /\
  (forall c rest,
     text = c :: rest -> isspace c = true -> words_of text = words_of rest) /\
  (forall w rest,
     text = w ++ rest -> w <> [] -> Forall (fun c => isspace c = false) w ->
     match rest with [] => True | c :: _ => isspace c = true end ->
     words_of text = (ws ← words_of rest; Ok (w :: ws))).
Proof.
  intros text words_of.
  assert (Hwords : forall s,
            words_of s = Ok (AoCData.split_whitespace isspace [] s)).
  { intros s. apply create_tuple_words. }
  split; [|split; [|split]].
  - exists (AoCData.split_whitespace isspace [] text).
    destruct self as [raw]. split; [apply (Hwords raw)|].
    apply (split_whitespace_spec [] raw). constructor.
  - intros ->. apply Hwords.
  - intros c rest -> Hc. rewrite !Hwords. simpl. rewrite Hc. reflexivity.
  - intros w rest -> Hne Hw Hend. rewrite !Hwords.
    rewrite split_whitespace_run by exact Hw. rewrite app_nil_l.
    destruct w as [|c0 w]; [congruence|].
    destruct rest as [|c rest]; [reflexivity|].
    simpl. rewrite Hend. reflexivity.
Qed.

End DataFacts.

(** * The further properties at work on concrete inputs *)

Lemma look_never_raises_witness :
  exists vs,
    look demo_map (Some (- 3)) (Some Direction.W) = Ok (Cells vs) /\
    Z.of_nat (length vs) = 3.
Proof.
  apply (look_never_raises demo_map (Some (- 3)) (Some Direction.W));
    reflexivity.
Defined.

Lemma look_negative_reads_behind_witness :
  exists vs,
    look demo_map (Some (- 3)) (Some Direction.W) = Ok (Cells vs) /\
    Z.of_nat (length vs) = 3 /\
    forall (j : nat) v, vs !! j = Some v ->
      getitem demo_map (ahead demo_map Direction.W (- (Z.of_nat j + 1))) = Ok v.
Proof.
  apply (look_negative_reads_behind demo_map 3 (Some Direction.W));
    [reflexivity | reflexivity | lia].
Defined.

Lemma look_is_prefix_of_full_scan_witness :
  exists full,
    look demo_map None (Some Direction.E) = Ok (Cells full) /\
    look demo_map (Some 2) (Some Direction.E) = Ok (Cells (take 2 full)).
Proof.
  apply (look_is_prefix_of_full_scan demo_map 2 (Some Direction.E));
    [reflexivity | reflexivity | lia].
Defined.

Lemma update_keeps_navigator_valid_witness :
  exists m',
    update int64_cast demo_corner [PyInt 1; PyInt 2] (- 2) (Some Direction.S)
    = Ok m' /\
    rectangular (df m') = true /\ enclosed m' /\
    shape m' = shape demo_corner /\ position m' = position demo_corner /\
    heading m' = heading demo_corner.
Proof.
  apply (update_keeps_navigator_valid int64_cast demo_corner
           [PyInt 1; PyInt 2] (- 2) (Some Direction.S)); reflexivity.
Defined.

Lemma update_then_look_witness :
  exists m' before,
    update int64_cast demo_map [PyInt 100; PyInt 200] 1 (Some Direction.E)
    = Ok m' /\
    look demo_map None (Some Direction.E) = Ok (Cells before) /\
    look m' None (Some Direction.E)
    = Ok (Cells
            (imap (fun i v =>
                     int64_cast
                       (fst (ahead demo_map Direction.E (1 + Z.of_nat i))) v)
               (take (length before) [PyInt 100; PyInt 200])
             ++ drop 2 before)) /\
    ((forall (i : nat) v, [PyInt 100; PyInt 200] !! i = Some v ->
        int64_cast (fst (ahead demo_map Direction.E (1 + Z.of_nat i))) v = v) ->
     look m' None (Some Direction.E)
     = Ok (Cells (take (length before) [PyInt 100; PyInt 200]
                  ++ drop 2 before))).
Proof.
  apply (update_then_look int64_cast demo_map [PyInt 100; PyInt 200]
           (Some Direction.E)); reflexivity.
Defined.

Lemma walk_lands_on_last_seen_witness :
  exists vs m',
    look demo_map (Some 2) (Some Direction.SE) = Ok (Cells vs) /\
    walk pyval_len demo_map 2 (Some Direction.SE) = Ok m' /\
    match last vs with
    | Some v =>
        getitem m' (position m') = Ok v /\
        look m' (Some 0) (Some Direction.SE) = Ok (Cell v)
    | None => m' = demo_map
    end.
Proof.
  apply (walk_lands_on_last_seen pyval_len demo_map 2 (Some Direction.SE));
    [reflexivity | reflexivity | lia].
Defined.

Lemma walk_there_and_back_witness :
  exists m',
    walk pyval_len demo_map 9 (Some Direction.SE) = Ok m' /\
    position m' = ahead demo_map Direction.SE 7 /\
    (7 = 0 -> m' = demo_map) /\
    (1 <= 7 -> walk pyval_len m' 7 (Some Direction.NW) = Ok demo_map).
Proof.
  apply (walk_there_and_back pyval_len demo_map 9 (Some Direction.SE));
    [reflexivity | reflexivity | lia].
Defined.

Lemma walk_walk_witness :
  (m' ← walk pyval_len demo_map 2 (Some Direction.S);
   walk pyval_len m' 20 (Some Direction.S))
  = walk pyval_len demo_map (2 + 20) (Some Direction.S).
Proof.
  apply (walk_walk pyval_len demo_map 2 20 (Some Direction.S));
    [reflexivity | reflexivity | lia | lia].
Defined.

Lemma walk_negative_is_unclipped_witness :
  walk pyval_len demo_map (- 4) (Some Direction.E)
  = Ok (moved demo_map Direction.E (- 4)) /\
  (enclosed (moved demo_map Direction.E (- 4))
   <-> 4 <= steps_to_boundary demo_map Direction.W).
Proof.
  apply (walk_negative_is_unclipped pyval_len demo_map 4 (Some Direction.E));
    [reflexivity | reflexivity | lia].
Defined.

Lemma walk_forward_stops_at_edge_witness :
  exists m',
    walk pyval_len demo_map 30 (Some Direction.SE) = Ok m' /\
    enclosed m' /\ shape m' = shape demo_map /\
    (steps_to_boundary demo_map Direction.SE <= 30 ->
     at_edge m' = true /\ look m' None (Some Direction.SE) = Ok (Cells [])).
Proof.
  apply (walk_forward_stops_at_edge pyval_len demo_map 30
           (Some Direction.SE)); [reflexivity | reflexivity | lia].
Defined.

Lemma at_edge_iff_some_look_empty_witness :
  at_edge demo_map = true
  <-> exists d, look demo_map None (Some d) = Ok (Cells []).
Proof.
  apply (at_edge_iff_some_look_empty demo_map); reflexivity.
Defined.

Lemma set_position_round_trip_witness :
  position (mkAoCMap demo_df 7 9 Direction.N) = (7, 9) /\
  enclosed (mkAoCMap demo_df 7 9 Direction.N) /\
  df (mkAoCMap demo_df 7 9 Direction.N) = df demo_map /\
  heading (mkAoCMap demo_df 7 9 Direction.N) = heading demo_map /\
  set_position (mkAoCMap demo_df 7 9 Direction.N) (7, 9)
  = Ok (mkAoCMap demo_df 7 9 Direction.N) /\
  (enclosed demo_map ->
   set_position (mkAoCMap demo_df 7 9 Direction.N) (position demo_map)
   = Ok demo_map).
Proof.
  apply (set_position_round_trip demo_map 7 9
           (mkAoCMap demo_df 7 9 Direction.N)).
  reflexivity.
Defined.

Lemma rotate_turns_by_floor_witness :
  exists h,
    rotate demo_map 100
    = Ok (mkAoCMap (df demo_map) (x demo_map) (y demo_map) h) /\
    Direction.value h = (Direction.value (heading demo_map) + 100 / 45) mod 8.
Proof.
  apply (rotate_turns_by_floor demo_map 100). vm_compute; reflexivity.
Defined.

Lemma rotate_compose_witness :
  rotate demo_map (100 + 360 * (- 2)) = rotate demo_map 100 /\
  (m' ← rotate demo_map (45 * 3); rotate m' 100)
  = rotate demo_map (45 * 3 + 100).
Proof.
  apply (rotate_compose demo_map 3 (- 2) 100); vm_compute; reflexivity.
Defined.

Lemma rotate_there_and_back_witness :
  exists h,
    (m' ← rotate demo_map 100; rotate m' (- 100))
    = Ok (mkAoCMap (df demo_map) (x demo_map) (y demo_map) h) /\
    Direction.value h
    = (Direction.value (heading demo_map)
       + (if 100 mod 45 =? 0 then 0 else -1)) mod 8
    /\ (100 mod 45 = 0 ->
        (m' ← rotate demo_map 100; rotate m' (- 100)) = Ok demo_map).
Proof.
  apply (rotate_there_and_back demo_map 100); vm_compute; reflexivity.
Defined.

(** Outside that range the float sum rounds.  From north, 45 * (2^52 + 1)
    degrees is 2^52 + 1 compass steps, one step modulo 8, but the half
    added to the odd float 2^52 + 1 rounds it to 2^52 + 2 and the heading
    becomes east; and a quotient of 2^1024 or more cannot be converted to a
    float at all. *)
Example rotate_beyond_exact_turn :
  ~ exact_turn (45 * (2 ^ 52 + 1)) /\
  (2 ^ 52 + 1) mod 8 = Direction.value Direction.NE /\
  rotate demo_map (45 * (2 ^ 52 + 1))
  = Ok (mkAoCMap demo_df 0 0 Direction.E) /\
  rotate demo_map 45 = Ok (mkAoCMap demo_df 0 0 Direction.NE) /\
  rotate demo_map (45 + 360 * 2 ^ 49) = Ok (mkAoCMap demo_df 0 0 Direction.E) /\
  rotate demo_map (10 ^ 400) = Raise OverflowError.
Proof.
  split; [vm_compute; discriminate|]. repeat split; vm_compute; reflexivity.
Qed.

Lemma element_positions_lists_every_cell_witness :
  exists items,
    element_positions Z.ltb tally_map = Ok items /\
    NoDup items.*1 /\
    (forall k cx cy,
       (exists ps, dict_get k items = Some ps /\ (cx, cy) ∈ ps)
       <-> getitem tally_map (cx, cy) = Ok k) /\
    (forall k, dict_get k items <> Some []).
Proof.
  apply (element_positions_lists_every_cell Z.ltb tally_map). reflexivity.
Defined.

Lemma element_positions_column_major_witness :
  [(0, 0); (0, 2); (1, 2)] = List.filter (holds tally_map 3) (all_cells tally_map)
  /\ StronglySorted column_major_lt [(0, 0); (0, 2); (1, 2)]
  /\ NoDup [(0, 0); (0, 2); (1, 2)].
Proof.
  apply (element_positions_column_major Z.ltb tally_map 3
           [(0, 0); (0, 2); (1, 2)]).
  - reflexivity.
  - exists [(1, [(0, 1); (1, 0)]); (2, [(1, 1)]);
            (3, [(0, 0); (0, 2); (1, 2)])].
    split; reflexivity.
Defined.

Lemma element_positions_keys_ascending_witness :
  exists items,
    element_positions Z.ltb tally_map = Ok items /\
    keys_ascending Z.ltb items.
Proof.
  apply (element_positions_keys_ascending Z.ltb tally_map).
  - intros a b Hab. apply Z.ltb_lt in Hab. apply Z.ltb_ge. lia.
  - intros a b c Hab Hbc. apply Z.ltb_lt in Hab, Hbc. apply Z.ltb_lt. lia.
  - intros a b Hab. rewrite !Z.ltb_lt. lia.
  - reflexivity.
Defined.

Lemma run_tests_stops_at_first_failure_witness :
  AoCTester.run_tests first_five sum_of
    (AoCTester.mk ([([1; 2], 3)] ++ ([4; 5], 10) :: [([6], 6)]))
  = (concat (AoCTester.report first_five sum_of <$> [([1; 2], 3)])
     ++ [AoCTester.ShowData [4; 5]; AoCTester.ShowExpected 10;
         AoCTester.ShowActual 9; AoCTester.ShowEqual false],
     Some AoCTester.AssertionError).
Proof.
  apply (run_tests_stops_at_first_failure first_five sum_of
           [([1; 2], 3)] [([6], 6)] [4; 5] 10 9 [4; 5]).
  - constructor; [|constructor]. split; [reflexivity | eexists; reflexivity].
  - reflexivity.
  - lia.
  - reflexivity.
Defined.

Lemma as_int_reads_digits_only_witness :
  AoCData.as_int ascii_isdigit ascii_decimal_value 4300
    (AoCData.new ascii_isspace [32; 45; 49; 50; 97; 51; 10])
  = AoCData.int_of_digits ascii_decimal_value 4300 [49; 50; 51] /\
  ([49; 50; 51] = [] ->
   AoCData.as_int ascii_isdigit ascii_decimal_value 4300
     (AoCData.new ascii_isspace [32; 45; 49; 50; 97; 51; 10])
   = Raise ValueError) /\
  (forall ds,
     [49; 50; 51] <> [] ->
     (4300%nat = 0%nat \/ (length [49; 50; 51] <= 4300)%nat) ->
     mapM ascii_decimal_value [49; 50; 51] = Some ds ->
     AoCData.as_int ascii_isdigit ascii_decimal_value 4300
       (AoCData.new ascii_isspace [32; 45; 49; 50; 97; 51; 10])
     = Ok (AoCData.decimal ds) /\ 0 <= AoCData.decimal ds).
Proof.
  apply (as_int_reads_digits_only ascii_isspace ascii_isdigit
           ascii_decimal_value 4300 [32; 45; 49; 50; 97; 51; 10]).
  - intros c. unfold ascii_isspace, ascii_isdigit. lia.
  - intros c v. unfold ascii_decimal_value, ascii_isdigit.
    destruct ((48 <=? c) && (c <=? 57)) eqn:E; [|discriminate].
    intros [= <-]. lia.
Defined.

Lemma create_tuple_split_join_witness :
  (exists pieces,
     AoCData.create_tuple ascii_isspace (fun piece => Ok piece)
       (Some [10; 10]) (AoCData.mk [97; 10; 10; 98; 10; 99]) = Ok pieces /\
     pieces <> [] /\
     AoCData.join [10; 10] pieces = [97; 10; 10; 98; 10; 99]) /\
  ((forall j, ~ occurs_at [10; 10] [97; 10; 10; 98; 10; 99] j) ->
   AoCData.create_tuple ascii_isspace (fun piece => Ok piece)
     (Some [10; 10]) (AoCData.mk [97; 10; 10; 98; 10; 99])
   = Ok [[97; 10; 10; 98; 10; 99]]) /\
  (forall i,
     occurs_at [10; 10] [97; 10; 10; 98; 10; 99] i ->
     (forall j, (j < i)%nat ->
        ~ occurs_at [10; 10] [97; 10; 10; 98; 10; 99] j) ->
     AoCData.create_tuple ascii_isspace (fun piece => Ok piece)
       (Some [10; 10]) (AoCData.mk [97; 10; 10; 98; 10; 99])
     = (rest ← AoCData.create_tuple ascii_isspace (fun piece => Ok piece)
                 (Some [10; 10])
                 (AoCData.mk (drop (i + 2) [97; 10; 10; 98; 10; 99]));
        Ok (take i [97; 10; 10; 98; 10; 99] :: rest))) /\
  AoCData.create_tuple ascii_isspace (fun piece => Ok piece)
    (Some []) (AoCData.mk [97; 10; 10; 98; 10; 99])
  = Ok [[97]; [10]; [10]; [98]; [10]; [99]].
Proof.
  apply (create_tuple_split_join ascii_isspace [10; 10]
           (AoCData.mk [97; 10; 10; 98; 10; 99])).
  discriminate.
Defined.

(** The same call read off: the text [a\n\nb\nc] cut at the blank line,
    and the text [a b] cut into its two words. *)
Example create_tuple_demo :
  AoCData.create_tuple ascii_isspace (fun piece => Ok piece)
    (Some [10; 10]) (AoCData.mk [97; 10; 10; 98; 10; 99])
  = Ok [[97]; [98; 10; 99]] /\
  AoCData.create_tuple ascii_isspace (fun piece => Ok piece)
    None (AoCData.mk [97; 32; 98])
  = Ok [[97]; [98]].
Proof. split; reflexivity. Qed.
